(** * Inference_Blueprints: tiered gateway authentication, client factory,
      retry and bounded batch execution

    A shallow embedding of the five near-identical gateway clients of the
    repository (code-translation, doc-summarization, rag-chatbot and the two
    pdf-podcast services) and the properties of their shared core. *)

From Stdlib Require Import String Ascii List ZArith Lia Bool Arith.
From Stdlib Require Import DecimalString.
Import ListNotations.
Open Scope string_scope.

(** ** Python primitives used by the clients *)

Module Py.

(** Python [str] values are modelled by [string]; a character is a code
    point below 256.  *)

(** Truthiness of a [str] and of an [Optional[str]]. *)
Definition truthy (s : string) : bool := negb (s =? "").

Definition truthy_opt (o : option string) : bool :=
  match o with
  | Some s => truthy s
  | None => false
  end.

(** [x or y] on optional strings. *)
Definition or_else (x y : option string) : option string :=
  if truthy_opt x then x else y.

(** [str.isspace] on one character: TAB..CR, FS..US, SPACE, NEL, NBSP. *)
Definition isspace (c : ascii) : bool :=
  let n := nat_of_ascii c in
  (((9 <=? n) && (n <=? 13)) || ((28 <=? n) && (n <=? 32))
   || (n =? 133) || (n =? 160))%nat.

Definition is_slash (c : ascii) : bool := Ascii.eqb c "/".

Fixpoint lstrip_by (p : ascii -> bool) (s : string) : string :=
  match s with
  | "" => ""
  | String c s' => if p c then lstrip_by p s' else s
  end.

Fixpoint rstrip_by (p : ascii -> bool) (s : string) : string :=
  match s with
  | "" => ""
  | String c s' =>
      match rstrip_by p s' with
      | "" => if p c then "" else String c ""
      | r => String c r
      end
  end.

(** [s.lstrip()], [s.rstrip()], [s.strip()] and [s.rstrip("/")]. *)
Definition lstrip : string -> string := lstrip_by isspace.
Definition rstrip : string -> string := rstrip_by isspace.
Definition strip (s : string) : string := rstrip (lstrip s).
Definition rstrip_slash : string -> string := rstrip_by is_slash.
Definition strip_slash (s : string) : string :=
  rstrip_by is_slash (lstrip_by is_slash s).

(** [s.startswith(p)] and [s.endswith(p)]. *)
Definition startswith (s p : string) : bool := prefix p s.

Fixpoint endswith (s suf : string) : bool :=
  (s =? suf)
  || match s with
     | "" => false
     | String _ s' => endswith s' suf
     end.

(** Slicing [s[start:stop]] with Python's clamping of the two indices
    ([None] is an omitted index). *)
Definition clamp_index (n i : Z) : Z :=
  if (i <? 0)%Z then Z.max 0 (n + i) else Z.min i n.

Definition slice (s : string) (start stop : option Z) : string :=
  let n := Z.of_nat (String.length s) in
  let a := match start with None => 0%Z | Some i => clamp_index n i end in
  let b := match stop with None => n | Some j => clamp_index n j end in
  substring (Z.to_nat a) (Z.to_nat (b - a)) s.

(** [s.find(c)] for a one-character needle: first index, or -1. *)
Fixpoint find (s : string) (c : ascii) : Z :=
  match s with
  | "" => (-1)%Z
  | String d s' =>
      if Ascii.eqb d c then 0%Z
      else let r := find s' c in
           if (r =? -1)%Z then (-1)%Z else (r + 1)%Z
  end.

(** [str.lower] on code points below 256. *)
Definition lower_char (c : ascii) : ascii :=
  let n := nat_of_ascii c in
  if (((65 <=? n) && (n <=? 90))
      || ((192 <=? n) && (n <=? 222) && negb (n =? 215)))%nat
  then ascii_of_nat (n + 32) else c.

Fixpoint lower (s : string) : string :=
  match s with
  | "" => ""
  | String c s' => String (lower_char c) (lower s')
  end.

(** [x in {...}] for a set literal of strings. *)
Definition in_set (x : string) (l : list string) : bool :=
  existsb (String.eqb x) l.

Definition newline : ascii := ascii_of_nat 10.

End Py.

(** ** code-translation/api/services/api_client.py: text post-processing *)

Module Fences.
Import Py.

Definition fence : string := "```".

Definition language_tags : list string :=
  ["python"; "java"; "c"; "cpp"; "rust"; "go"; "ts"; "js"; "javascript";
   "csharp"].

(** [APIClient._strip_code_fences]. *)
Definition _strip_code_fences (text : string) : string :=
  let stripped := strip text in
  let stripped :=
    if startswith stripped fence && endswith stripped fence
    then strip (slice stripped (Some 3%Z) (Some (-3)%Z))
    else stripped in
  let first_newline := find stripped newline in
  if negb (first_newline =? -1)%Z then
    let first_line :=
      lower (strip (slice stripped None (Some first_newline))) in
    if in_set first_line language_tags
    then lstrip (slice stripped (Some (first_newline + 1)%Z) None)
    else stripped
  else stripped.


Definition has_language_tag (s : string) : bool :=
  let k := find s newline in
  negb (k =? -1)%Z
  && in_set (lower (strip (slice s None (Some k)))) language_tags.

Definition nl : string := String newline "".


End Fences.

(** ** Base-URL normalisation (rag-chatbot and pdf-podcast TTS) *)

Module Url.
Import Py.

(** rag-chatbot [APIClient._normalize_base]. *)
Definition _normalize_base (url : string) : string :=
  if endswith url "/v1" then url else url ++ "/v1".

(** rag-chatbot: [__init__] stores [config.BASE_URL.rstrip("/")] and every
    client is built from [self._normalize_base(self.base_url)]. *)
Definition rag_normalize (BASE_URL : string) : string :=
  _normalize_base (rstrip_slash BASE_URL).


(** pdf-podcast TTS [__init__], lines 40-45: [final_base]. *)
Definition tts_final_base (base_url : string) : string :=
  let base := rstrip_slash base_url in
  if endswith base "/v1" then base else base ++ "/v1".

End Url.

(** ** Effects: exceptions, log records, HTTP and the completion endpoint *)

Module Eff.

(** A raised exception: any [Exception] subclass with its message, or
    tenacity's [RetryError] around the exception of the last attempt. *)
Inductive exn : Type :=
| Exc (cls msg : string)
| RetryError (last_attempt : exn).

Inductive result (A : Type) : Type :=
| Ok (a : A)
| Raise (e : exn).
Arguments Ok {A} a.
Arguments Raise {A} e.

Inductive level : Type := INFO | WARNING | ERROR.

(** The two lower authentication tiers; the Keycloak tier is visible as
    its token request. *)
Inductive tier : Type := StaticKey | OpenMode.

(** The form body of the client-credentials request. *)
Record payload : Type := {
  grant_type : string;
  client_id : option string;
  client_secret : option string
}.

(** An [OpenAI(api_key=..., base_url=...)] client. *)
Record OpenAI : Type := {
  api_key_of : option string;
  base_url_of : string
}.

(** What a method does besides computing: a logger call (with its message
    template), the token request [requests.post(token_url, data=payload)],
    the evaluation of the test that guards a lower tier, a call of
    [client.chat.completions.create], and a back-off sleep. *)
Inductive event : Type :=
| Log (lvl : level) (msg : string)
| TokenPost (url : string) (data : payload) (timeout : option Z)
| Consult (t : tier)
| ChatCreate (client : OpenAI) (model : option string)
    (messages : list (string * string))
| Sleep (seconds : Z).

(** The token endpoint's answer.  [access_token] is the value of
    [response.json().get("access_token")]: [None] when the key is absent,
    a token string otherwise; [BadJson] is a body on which [.json()] or
    [.get] raises. *)
Inductive json_body : Type :=
| BadJson (e : exn)
| JsonObject (access_token : option string).

Record response : Type := {
  status_code : Z;
  text : string;
  body : json_body
}.

Inductive post_outcome : Type :=
| PostRaises (e : exn)
| PostReturns (r : response).

(** An OpenAI-style chat completion.  The SDK's response object always has
    the attribute [choices]; it is [None] when the gateway's JSON omits
    it. *)
Record Message : Type := { content : option string }.
Record Choice : Type := { message : Message }.
Record ChatCompletion : Type := { choices : option (list Choice) }.

Inductive chat_outcome : Type :=
| ChatRaises (e : exn)
| ChatReturns (r : ChatCompletion).

(** The outside world: the token endpoint, and the completion endpoint
    whose n-th call (counted from 0) has a fixed outcome. *)
Record env : Type := {
  post : string -> payload -> post_outcome;
  chat : nat -> chat_outcome
}.

Record world : Type := {
  trace : list event;
  chat_calls : nat
}.

Definition world0 : world := {| trace := []; chat_calls := 0 |}.

(** Methods of an object of type [S]: they read and assign its
    attributes, act on the world, and return or raise. *)
Definition M (S A : Type) : Type := S -> world -> result A * S * world.

Definition ret {S A} (a : A) : M S A := fun s w => (Ok a, s, w).

Definition bind {S A B} (m : M S A) (k : A -> M S B) : M S B :=
  fun s w =>
    match m s w with
    | (Ok a, s', w') => k a s' w'
    | (Raise e, s', w') => (Raise e, s', w')
    end.

Definition raise {S A} (e : exn) : M S A := fun s w => (Raise e, s, w).

(** [try: m  except Exception as e: h e]. *)
Definition try_except {S A} (m : M S A) (h : exn -> M S A) : M S A :=
  fun s w =>
    match m s w with
    | (Ok a, s', w') => (Ok a, s', w')
    | (Raise e, s', w') => h e s' w'
    end.

Definition get {S} : M S S := fun s w => (Ok s, s, w).
Definition put {S} (s : S) : M S unit := fun _ w => (Ok tt, s, w).

Definition emit {S} (e : event) : M S unit :=
  fun s w =>
    (Ok tt, s, {| trace := trace w ++ [e]; chat_calls := chat_calls w |}).

Definition log {S} (lvl : level) (msg : string) : M S unit :=
  emit (Log lvl msg).

(** [requests.post(url, data=data, timeout=timeout, verify=False)]. *)
Definition requests_post {S} (E : env) (url : string) (data : payload)
    (timeout : option Z) : M S response :=
  bind (emit (TokenPost url data timeout)) (fun _ =>
    match post E url data with
    | PostRaises e => raise e
    | PostReturns r => ret r
    end).

(** [resp.json().get("access_token")]. *)
Definition json_access_token {S} (r : response) : M S (option string) :=
  match body r with
  | BadJson e => raise e
  | JsonObject tok => ret tok
  end.

(** [client.chat.completions.create(model=..., messages=...)]. *)
Definition chat_completions_create {S} (E : env) (client : OpenAI)
    (model : option string) (messages : list (string * string))
  : M S ChatCompletion :=
  fun s w =>
    let w' := {| trace := trace w ++ [ChatCreate client model messages];
                 chat_calls := Datatypes.S (chat_calls w) |} in
    match chat E (chat_calls w) with
    | ChatRaises e => (Raise e, s, w')
    | ChatReturns r => (Ok r, s, w')
    end.

Definition client_credentials (id secret : option string) : payload :=
  {| grant_type := "client_credentials";
     client_id := id; client_secret := secret |}.

(** Truthiness of [response.choices], and [x or ""]. *)
Definition truthy_choices (c : option (list Choice)) : bool :=
  match c with
  | Some (_ :: _) => true
  | _ => false
  end.

Definition or_empty (x : option string) : string :=
  match x with
  | Some s => s
  | None => ""
  end.

(** The token a tier-1 request obtains: the endpoint answers 200 with a
    non-empty [access_token]; any other outcome obtains nothing. *)
Definition granted_token (o : post_outcome) : option string :=
  match o with
  | PostRaises _ => None
  | PostReturns r =>
      if (status_code r =? 200)%Z then
        match body r with
        | JsonObject (Some t) => if negb (t =? "") then Some t else None
        | _ => None
        end
      else None
  end.

(** Observations on a trace. *)
Definition is_token_post (e : event) : bool :=
  match e with TokenPost _ _ _ => true | _ => false end.

Definition is_consult (e : event) : bool :=
  match e with Consult _ => true | _ => false end.


Definition is_sleep (e : event) : bool :=
  match e with Sleep _ => true | _ => false end.

Definition token_posts (t : list event) : list event :=
  filter is_token_post t.

Definition consults (t : list event) : list event := filter is_consult t.

Definition sleeps (t : list event) : list Z :=
  flat_map (fun e => match e with Sleep z => [z] | _ => [] end) t.


(** Running a method on an object in the initial world. *)
Definition run {S A} (m : M S A) (s : S) : result A * S * world :=
  m s world0.

End Eff.

Declare Scope py_scope.
Notation "x <- m ;; k" := (Eff.bind m (fun x => k))
  (at level 61, m at next level, right associativity) : py_scope.
Notation "m ;; k" := (Eff.bind m (fun _ => k))
  (at level 61, right associativity) : py_scope.

(** ** code-translation/api/services/api_client.py *)

Module CodeTranslation.
Import Py Eff Fences.
Local Open Scope py_scope.

(** [config], read through [getattr(config, NAME, None)]. *)
Record Config : Type := {
  BASE_URL : option string;
  KEYCLOAK_CLIENT_ID : option string;
  KEYCLOAK_CLIENT_SECRET : option string;
  INFERENCE_API_KEY : option string;
  INFERENCE_MODEL_ENDPOINT : option string;
  INFERENCE_MODEL_NAME : string
}.

Record APIClient : Type := {
  base_url : option string;
  token : option string;
  api_key : option string;
  auth_mode : string
}.

Definition assign_token (t : option string) : M APIClient unit :=
  fun self w =>
    (Ok tt, {| base_url := base_url self; token := t;
               api_key := api_key self; auth_mode := auth_mode self |}, w).

Definition assign_auth_mode (m : string) : M APIClient unit :=
  fun self w =>
    (Ok tt, {| base_url := base_url self; token := token self;
               api_key := api_key self; auth_mode := m |}, w).

(** The three Keycloak prerequisites, the token endpoint and the form body
    the tier sends. *)
Definition keycloak_configured (cfg : Config) : bool :=
  truthy_opt (BASE_URL cfg) && truthy_opt (KEYCLOAK_CLIENT_ID cfg)
  && truthy_opt (KEYCLOAK_CLIENT_SECRET cfg).

Definition token_url (cfg : Config) : string :=
  rstrip_slash (or_empty (BASE_URL cfg)) ++ "/token".

Definition credentials (cfg : Config) : payload :=
  client_credentials (KEYCLOAK_CLIENT_ID cfg) (KEYCLOAK_CLIENT_SECRET cfg).

(** Tier 1 of [_init_auth]; the result tells whether the method returned
    from inside the tier. *)
Definition keycloak_tier (E : env) (cfg : Config) : M APIClient bool :=
  self <- get ;;
  match base_url self with
  | Some base =>
      if truthy base && truthy_opt (KEYCLOAK_CLIENT_ID cfg)
         && truthy_opt (KEYCLOAK_CLIENT_SECRET cfg)
      then
        let token_url := rstrip_slash base ++ "/token" in
        let payload :=
          client_credentials (KEYCLOAK_CLIENT_ID cfg)
                             (KEYCLOAK_CLIENT_SECRET cfg) in
        try_except
          (log INFO "Authenticating with Keycloak at %s" ;;
           response <- requests_post E token_url payload None ;;
           if (status_code response =? 200)%Z then
             tok <- json_access_token response ;;
             assign_token tok ;;
             if truthy_opt tok then
               (assign_auth_mode "keycloak" ;;
                log INFO "Keycloak authentication successful" ;;
                ret true)
             else
               (log WARNING
                  "Keycloak response did not contain an access_token" ;;
                ret false)
           else
             (log WARNING "Keycloak auth failed: %s - %s" ;;
              ret false))
          (fun exc => log WARNING "Keycloak auth error: %s" ;; ret false)
      else ret false
  | None => ret false
  end.

(** [APIClient._init_auth]. *)
Definition _init_auth (E : env) (cfg : Config) : M APIClient unit :=
  returned <- keycloak_tier E cfg ;;
  if returned then ret tt
  else
    (emit (Consult StaticKey) ;;
     self <- get ;;
     if truthy_opt (api_key self) then
       (assign_auth_mode "api_key" ;;
        log INFO "Using INFERENCE_API_KEY for authentication")
     else
       (emit (Consult OpenMode) ;;
        assign_auth_mode "open" ;;
        log INFO "No authentication configured, running in open mode")).

(** [APIClient.__init__]. *)
Definition new (cfg : Config) : APIClient :=
  {| base_url := BASE_URL cfg; token := None;
     api_key := INFERENCE_API_KEY cfg; auth_mode := "open" |}.

Definition __init__ (E : env) (cfg : Config)
  : result unit * APIClient * world :=
  run (_init_auth E cfg) (new cfg).

(** The bearer key chosen by [_get_openai_client]. *)
Definition bearer_key (self : APIClient) : option string :=
  if (auth_mode self =? "keycloak") && truthy_opt (token self)
  then token self
  else if (auth_mode self =? "api_key") && truthy_opt (api_key self)
  then api_key self
  else Some "no-auth".

(** [APIClient._get_openai_client]. *)
Definition _get_openai_client (cfg : Config) : M APIClient OpenAI :=
  self <- get ;;
  match base_url self with
  | Some base =>
      if truthy base then
        let key := bearer_key self in
        let endpoint_path :=
          strip_slash (or_empty (INFERENCE_MODEL_ENDPOINT cfg)) in
        let full_base :=
          if truthy endpoint_path
          then rstrip_slash base ++ "/" ++ endpoint_path
          else rstrip_slash base in
        ret {| api_key_of := key; base_url_of := full_base |}
      else raise (Exc "ValueError" "BASE_URL is not configured in config.py")
  | None => raise (Exc "ValueError" "BASE_URL is not configured in config.py")
  end.

Definition system_prompt : string :=
  "You are a senior software engineer that translates code from one "
  ++ "language to another. Preserve logic and structure. Output only the "
  ++ "translated code, with no explanations and no markdown formatting.".

Definition user_prompt (source_code source_lang target_lang : string)
  : string :=
  let nl := String newline "" in
  "Translate the following " ++ source_lang ++ " code to " ++ target_lang
  ++ "." ++ nl ++ nl
  ++ "Return only the " ++ target_lang
  ++ " code, without comments or explanations," ++ nl
  ++ "and without markdown code fences." ++ nl ++ nl
  ++ source_lang ++ " code:" ++ nl
  ++ "```" ++ source_lang ++ nl ++ source_code ++ nl ++ "```".

(** [APIClient.translate_code]: one call of the completion endpoint, no
    retry decorator. *)
Definition translate_code (E : env) (cfg : Config)
    (source_code source_lang target_lang : string) : M APIClient string :=
  client <- _get_openai_client cfg ;;
  log INFO "Translating code from %s to %s" ;;
  try_except
    (response <-
       chat_completions_create E client (Some (INFERENCE_MODEL_NAME cfg))
         [("system", system_prompt);
          ("user", user_prompt source_code source_lang target_lang)] ;;
     match choices response with
     | Some (c :: _) =>
         let content := or_empty (content (message c)) in
         let translated := _strip_code_fences content in
         log INFO "Successfully translated code (%d characters)" ;;
         ret translated
     | _ =>
         log ERROR "Unexpected response structure: %r" ;;
         ret ""
     end)
    (fun exc => log ERROR "Error translating code: %s" ;; raise exc).

(** [APIClient.is_authenticated]. *)
Definition is_authenticated (self : APIClient) : bool :=
  ((auth_mode self =? "keycloak") && truthy_opt (token self))
  || ((auth_mode self =? "api_key") && truthy_opt (api_key self)).

End CodeTranslation.

(** ** doc-summarization/backend/api_client.py *)

Module DocSummarization.
Import Py Eff.
Local Open Scope py_scope.

(** [config]: the three credentials are read through [getattr(..., None)],
    [INFERENCE_MODEL_ENDPOINT] directly. *)
Record Config : Type := {
  BASE_URL : option string;
  KEYCLOAK_CLIENT_ID : option string;
  KEYCLOAK_CLIENT_SECRET : option string;
  INFERENCE_API_KEY : option string;
  INFERENCE_MODEL_ENDPOINT : string
}.

Record APIClient : Type := {
  base_url : option string;
  token : option string;
  api_key : option string;
  auth_mode : string
}.

Definition assign_token (t : option string) : M APIClient unit :=
  fun self w =>
    (Ok tt, {| base_url := base_url self; token := t;
               api_key := api_key self; auth_mode := auth_mode self |}, w).

Definition assign_auth_mode (m : string) : M APIClient unit :=
  fun self w =>
    (Ok tt, {| base_url := base_url self; token := token self;
               api_key := api_key self; auth_mode := m |}, w).

Definition keycloak_configured (cfg : Config) : bool :=
  truthy_opt (BASE_URL cfg) && truthy_opt (KEYCLOAK_CLIENT_ID cfg)
  && truthy_opt (KEYCLOAK_CLIENT_SECRET cfg).

Definition token_url (cfg : Config) : string :=
  or_empty (BASE_URL cfg) ++ "/token".

Definition credentials (cfg : Config) : payload :=
  client_credentials (KEYCLOAK_CLIENT_ID cfg) (KEYCLOAK_CLIENT_SECRET cfg).

(** Tier 1 of [_init_auth]: on status 200 the mode becomes "keycloak"
    whatever [access_token] is. *)
Definition keycloak_tier (E : env) (cfg : Config) : M APIClient bool :=
  self <- get ;;
  match base_url self with
  | Some base =>
      if truthy base && truthy_opt (KEYCLOAK_CLIENT_ID cfg)
         && truthy_opt (KEYCLOAK_CLIENT_SECRET cfg)
      then
        try_except
          (let token_url := base ++ "/token" in
           log INFO "Authenticating with Keycloak at %s" ;;
           let payload :=
             client_credentials (KEYCLOAK_CLIENT_ID cfg)
                                (KEYCLOAK_CLIENT_SECRET cfg) in
           response <- requests_post E token_url payload None ;;
           if (status_code response =? 200)%Z then
             (tok <- json_access_token response ;;
              assign_token tok ;;
              assign_auth_mode "keycloak" ;;
              log INFO "Keycloak authentication successful" ;;
              ret true)
           else
             (log WARNING "Keycloak auth failed: %s - %s" ;;
              ret false))
          (fun exc => log WARNING "Keycloak auth error: %s" ;; ret false)
      else ret false
  | None => ret false
  end.

(** [APIClient._init_auth]. *)
Definition _init_auth (E : env) (cfg : Config) : M APIClient unit :=
  returned <- keycloak_tier E cfg ;;
  if returned then ret tt
  else
    (emit (Consult StaticKey) ;;
     self <- get ;;
     if truthy_opt (api_key self) then
       (assign_auth_mode "api_key" ;;
        log INFO "Using INFERENCE_API_KEY for authentication")
     else
       (emit (Consult OpenMode) ;;
        assign_auth_mode "open" ;;
        log INFO "No authentication configured, running in open mode")).

Definition new (cfg : Config) : APIClient :=
  {| base_url := BASE_URL cfg; token := None;
     api_key := INFERENCE_API_KEY cfg; auth_mode := "open" |}.

(** [APIClient.__init__]. *)
Definition __init__ (E : env) (cfg : Config)
  : result unit * APIClient * world :=
  run (_init_auth E cfg) (new cfg).

(** [APIClient.get_inference_client]. *)
Definition get_inference_client (cfg : Config) : M APIClient OpenAI :=
  self <- get ;;
  match base_url self with
  | Some base =>
      if truthy base then
        let key :=
          if (auth_mode self =? "keycloak") && truthy_opt (token self)
          then token self
          else if (auth_mode self =? "api_key") && truthy_opt (api_key self)
          then api_key self
          else Some "no-auth" in
        ret {| api_key_of := key;
               base_url_of :=
                 base ++ "/" ++ INFERENCE_MODEL_ENDPOINT cfg ++ "/v1" |}
      else raise (Exc "ValueError" "BASE_URL is not configured in config.py")
  | None => raise (Exc "ValueError" "BASE_URL is not configured in config.py")
  end.

(** [APIClient.is_authenticated]. *)
Definition is_authenticated (self : APIClient) : bool :=
  (auth_mode self =? "keycloak") || (auth_mode self =? "api_key").

End DocSummarization.

(** ** rag-chatbot/api/services/api_client.py *)

Module RagChatbot.
Import Py Eff Url.
Local Open Scope py_scope.

(** [config]: both base URLs are strings ([.rstrip] is called on them). *)
Record Config : Type := {
  BASE_URL : string;
  EMBEDDINGS_BASE_URL : string;
  KEYCLOAK_CLIENT_ID : option string;
  KEYCLOAK_CLIENT_SECRET : option string;
  INFERENCE_API_KEY : option string;
  INFERENCE_MODEL_NAME : string
}.

Record APIClient : Type := {
  base_url : string;
  embeddings_base_url : string;
  api_key : option string;
  auth_mode : string
}.

Definition assign_auth (key : option string) (m : string)
  : M APIClient unit :=
  fun self w =>
    (Ok tt, {| base_url := base_url self;
               embeddings_base_url := embeddings_base_url self;
               api_key := key; auth_mode := m |}, w).

Definition token_url (cfg : Config) : string :=
  rstrip_slash (BASE_URL cfg) ++ "/token".

Definition credentials (cfg : Config) : payload :=
  client_credentials (KEYCLOAK_CLIENT_ID cfg) (KEYCLOAK_CLIENT_SECRET cfg).

(** The prerequisites [_try_keycloak_token] tests: id and secret only. *)
Definition keycloak_configured (cfg : Config) : bool :=
  truthy_opt (KEYCLOAK_CLIENT_ID cfg)
  && truthy_opt (KEYCLOAK_CLIENT_SECRET cfg).

(** [APIClient._try_keycloak_token]. *)
Definition _try_keycloak_token (E : env) (cfg : Config)
  : M APIClient (option string) :=
  self <- get ;;
  if negb (truthy_opt (KEYCLOAK_CLIENT_ID cfg)
           && truthy_opt (KEYCLOAK_CLIENT_SECRET cfg))
  then ret None
  else
    let token_url := base_url self ++ "/token" in
    let payload :=
      client_credentials (KEYCLOAK_CLIENT_ID cfg)
                         (KEYCLOAK_CLIENT_SECRET cfg) in
    try_except
      (log INFO "Requesting Keycloak token" ;;
       resp <- requests_post E token_url payload None ;;
       if negb (status_code resp =? 200)%Z then
         (log ERROR "Keycloak token request failed: %s %s" ;;
          ret None)
       else
         (token <- json_access_token resp ;;
          if negb (truthy_opt token) then
            (log ERROR "Keycloak response missing access_token" ;;
             ret None)
          else ret token))
      (fun e => log ERROR "Keycloak auth error: %s" ;; ret None).

Definition no_gateway_auth : exn :=
  Exc "ValueError"
    ("No gateway auth. Set KEYCLOAK_CLIENT_ID and "
     ++ "KEYCLOAK_CLIENT_SECRET or INFERENCE_API_KEY.").

(** [APIClient._configure_auth]. *)
Definition _configure_auth (E : env) (cfg : Config) : M APIClient unit :=
  token <- _try_keycloak_token E cfg ;;
  if truthy_opt token then
    (assign_auth token "keycloak" ;;
     log INFO "Gateway auth configured with Keycloak token")
  else
    (emit (Consult StaticKey) ;;
     if truthy_opt (INFERENCE_API_KEY cfg) then
       (assign_auth (INFERENCE_API_KEY cfg) "inference_api_key" ;;
        log INFO "Gateway auth configured with static INFERENCE_API_KEY")
     else raise no_gateway_auth).

Definition new (cfg : Config) : APIClient :=
  {| base_url := rstrip_slash (BASE_URL cfg);
     embeddings_base_url := rstrip_slash (EMBEDDINGS_BASE_URL cfg);
     api_key := None; auth_mode := "unconfigured" |}.

(** [APIClient.__init__]. *)
Definition __init__ (E : env) (cfg : Config)
  : result unit * APIClient * world :=
  run (log INFO "HTTP client initialized for gateway" ;;
       _configure_auth E cfg) (new cfg).

(** [APIClient.get_inference_client]. *)
Definition get_inference_client : M APIClient OpenAI :=
  self <- get ;;
  ret {| api_key_of := api_key self;
         base_url_of := _normalize_base (base_url self) |}.


(** [APIClient.complete]. *)
Definition complete (E : env) (cfg : Config) (prompt : string)
  : M APIClient string :=
  try_except
    (client <- get_inference_client ;;
     resp <-
       chat_completions_create E client (Some (INFERENCE_MODEL_NAME cfg))
         [("user", prompt)] ;;
     match choices resp with
     | Some (c :: _) =>
         let msg := message c in
         ret (if truthy_opt (content msg) then or_empty (content msg)
              else "")
     | _ =>
         log ERROR "Unexpected completion response: %r" ;;
         ret ""
     end)
    (fun e => log ERROR "Completion error: %s" ;; raise e).


End RagChatbot.

(** ** tenacity: the [@retry] decorator *)

Module Tenacity.
Import Eff.
Local Open Scope py_scope.

(** [stop_after_attempt(n)]: stop once [attempt_number >= n]. *)
Definition stop_after_attempt (max_attempt_number attempt_number : nat)
  : bool :=
  Nat.leb max_attempt_number attempt_number.

(** [wait_exponential(multiplier, min, max)], base 2:
    [max(max(0, min), min(multiplier * 2 ** (attempt_number - 1), max))]. *)
Definition wait_exponential (multiplier min max : Z) (attempt_number : nat)
  : Z :=
  let exp := (2 ^ (Z.of_nat attempt_number - 1))%Z in
  let result := (multiplier * exp)%Z in
  Z.max (Z.max 0 min) (Z.min result max).

(** The retrying loop: run the attempt; when it raises, either stop with
    [RetryError] (no [reraise=True]) or sleep and run the next attempt.
    [fuel] bounds the number of further attempts; [retry] below gives
    enough of it for [stop_after_attempt] to decide. *)
Fixpoint retrying {S A} (stop : nat -> bool) (wait : nat -> Z) (fuel : nat)
    (attempt_number : nat) (fn : M S A) : M S A :=
  try_except fn
    (fun e =>
       if stop attempt_number then raise (RetryError e)
       else
         match fuel with
         | 0 => raise (RetryError e)
         | Datatypes.S fuel' =>
             emit (Sleep (wait attempt_number)) ;;
             retrying stop wait fuel' (Datatypes.S attempt_number) fn
         end).

(** [@retry(stop=stop_after_attempt(n), wait=w)]. *)
Definition retry {S A} (max_attempt_number : nat) (wait : nat -> Z)
    (fn : M S A) : M S A :=
  retrying (stop_after_attempt max_attempt_number) wait
    max_attempt_number 1 fn.

End Tenacity.

(** ** pdf-podcast/api/llm-service/app/core/llm_client.py *)

Module PdfPodcastLLM.
Import Py Eff Tenacity.
Local Open Scope py_scope.

(** [app.config.Settings]. *)
Record Settings : Type := {
  BASE_URL : option string;
  INFERENCE_API_KEY : option string;
  KEYCLOAK_CLIENT_ID : string;
  KEYCLOAK_CLIENT_SECRET : option string;
  INFERENCE_MODEL_NAME : string;
  MAX_RETRIES : Z
}.

Record LLMClient : Type := {
  base_url : option string;
  client : option OpenAI;
  api_key : option string;
  auth_mode : string;
  default_model : option string
}.

Definition assign_auth (key : option string) (m : string)
  : M LLMClient unit :=
  fun self w =>
    (Ok tt, {| base_url := base_url self; client := client self;
               api_key := key; auth_mode := m;
               default_model := default_model self |}, w).

Definition assign_client (model : string) (c : OpenAI) : M LLMClient unit :=
  fun self w =>
    (Ok tt, {| base_url := base_url self; client := Some c;
               api_key := api_key self; auth_mode := auth_mode self;
               default_model := Some model |}, w).

Definition token_url (st : Settings) : string :=
  rstrip_slash (or_empty (BASE_URL st)) ++ "/token".

Definition credentials (st : Settings) : payload :=
  client_credentials (Some (KEYCLOAK_CLIENT_ID st))
                     (KEYCLOAK_CLIENT_SECRET st).

(** [LLMClient._try_keycloak_token]. *)
Definition _try_keycloak_token (E : env) (st : Settings)
  : M LLMClient (option string) :=
  self <- get ;;
  match base_url self with
  | None => ret None
  | Some base =>
      if negb (truthy base) then ret None
      else
        let token_url := base ++ "/token" in
        let payload :=
          client_credentials (Some (KEYCLOAK_CLIENT_ID st))
                             (KEYCLOAK_CLIENT_SECRET st) in
        try_except
          (resp <- requests_post E token_url payload (Some 10%Z) ;;
           if (status_code resp =? 200)%Z then
             (token <- json_access_token resp ;;
              if truthy_opt token then ret token
              else
                (log ERROR "LLMClient: Keycloak response missing access_token" ;;
                 ret None))
           else
             (log ERROR "LLMClient: Keycloak token request failed %s: %s" ;;
              ret None))
          (fun e =>
             log ERROR "LLMClient: Keycloak token request error: %s" ;;
             ret None)
  end.

(** The body of [LLMClient.__init__] after the attributes are set. *)
Definition init_auth (E : env) (st : Settings) (default_model_arg : string)
  : M LLMClient unit :=
  self <- get ;;
  match base_url self with
  | None =>
      log ERROR
        "LLMClient: BASE_URL is not set. Local inference endpoint is required."
  | Some base =>
      if negb (truthy base) then
        log ERROR
          "LLMClient: BASE_URL is not set. Local inference endpoint is required."
      else
        ((if truthy (KEYCLOAK_CLIENT_ID st)
             && truthy_opt (KEYCLOAK_CLIENT_SECRET st)
          then
            (token <- _try_keycloak_token E st ;;
             if truthy_opt token then
               (assign_auth token "keycloak" ;;
                log INFO
                  "LLMClient: using Keycloak access token for local gateway")
             else ret tt)
          else ret tt) ;;
         self <- get ;;
         (if negb (truthy_opt (api_key self)) then
            (emit (Consult StaticKey) ;;
             if truthy_opt (INFERENCE_API_KEY st) then
               (assign_auth (INFERENCE_API_KEY st) "inference_api_key" ;;
                log INFO "LLMClient: using INFERENCE_API_KEY for local gateway")
             else ret tt)
          else ret tt) ;;
         self <- get ;;
         if negb (truthy_opt (api_key self)) then
           log ERROR
             ("LLMClient: no auth configured. "
              ++ "Set either KEYCLOAK_CLIENT_SECRET or INFERENCE_API_KEY.")
         else
           (let model :=
              if truthy (INFERENCE_MODEL_NAME st)
              then INFERENCE_MODEL_NAME st else default_model_arg in
            assign_client model
              {| api_key_of := api_key self; base_url_of := base ++ "/v1" |} ;;
            log INFO
              ("LLMClient: configured local OpenAI-compatible client "
               ++ "at %s/v1 (auth_mode=%s)")))
  end.

Definition new (st : Settings) : LLMClient :=
  {| base_url :=
       if truthy_opt (BASE_URL st)
       then Some (rstrip_slash (or_empty (BASE_URL st))) else None;
     client := None; api_key := None; auth_mode := "none";
     default_model := None |}.

(** The Keycloak prerequisites as the constructor tests them: the stored
    base URL, the client id and the client secret. *)
Definition keycloak_configured (st : Settings) : bool :=
  truthy_opt (base_url (new st)) && truthy (KEYCLOAK_CLIENT_ID st)
  && truthy_opt (KEYCLOAK_CLIENT_SECRET st).

(** [LLMClient.__init__], with the default [default_model]. *)
Definition __init__ (E : env) (st : Settings)
  : result unit * LLMClient * world :=
  run (init_auth E st "gpt-4o-mini") (new st).

(** The undecorated body of [generate_with_openai]: [choices[0]] raises
    on an empty or missing list, [len(content)] on a missing content. *)
Definition generate_once (E : env) (system_prompt user_prompt : string)
    (model : option string) : M LLMClient string :=
  self <- get ;;
  match client self with
  | None =>
      raise (Exc "ValueError"
               ("LLM client is not configured. Check BASE_URL and either "
                ++ "KEYCLOAK_CLIENT_SECRET or INFERENCE_API_KEY."))
  | Some cl =>
      let use_model := or_else model (default_model self) in
      log INFO "LLMClient: generating with model=%s (auth_mode=%s)" ;;
      try_except
        (response <-
           chat_completions_create E cl use_model
             [("system", system_prompt); ("user", user_prompt)] ;;
         match choices response with
         | None =>
             raise (Exc "TypeError" "'NoneType' object is not subscriptable")
         | Some [] => raise (Exc "IndexError" "list index out of range")
         | Some (c :: _) =>
             match content (message c) with
             | None =>
                 raise (Exc "TypeError"
                          "object of type 'NoneType' has no len()")
             | Some text =>
                 log INFO "LLMClient: generated %d characters" ;;
                 ret text
             end
         end)
        (fun e => log ERROR "LLM generation failed: %s" ;; raise e)
  end.


(** [LLMClient.generate_with_openai], decorated with
    [@retry(stop=stop_after_attempt(3),
            wait=wait_exponential(multiplier=1, min=4, max=10))]. *)
Definition generate_with_openai (E : env)
    (system_prompt user_prompt : string) (model : option string)
  : M LLMClient string :=
  retry 3 (wait_exponential 1 4 10)
    (generate_once E system_prompt user_prompt model).


End PdfPodcastLLM.

(** ** pdf-podcast/api/tts-service/app/core/tts_client.py *)

Module PdfPodcastTTS.
Import Py Eff Url.
Local Open Scope py_scope.

(** [app.config.Settings] of the TTS service, as far as the client reads
    it. *)
Record Settings : Type := {
  TTS_MODEL : string;
  TTS_BASE_URL : option string;
  TTS_API_KEY : option string;
  KEYCLOAK_CLIENT_ID : option string;
  KEYCLOAK_CLIENT_SECRET : option string;
  MAX_CONCURRENT_REQUESTS : Z
}.

Record TTSClient : Type := {
  model : string;
  auth_mode : string;
  client : option OpenAI;
  base_url : option string;
  api_key : option string
}.

Definition assign_auth (key : option string) (m : string)
  : M TTSClient unit :=
  fun self w =>
    (Ok tt, {| model := model self; auth_mode := m; client := client self;
               base_url := base_url self; api_key := key |}, w).

Definition assign_client (c : OpenAI) : M TTSClient unit :=
  fun self w =>
    (Ok tt, {| model := model self; auth_mode := auth_mode self;
               client := Some c; base_url := base_url self;
               api_key := api_key self |}, w).

(** [TTSClient._try_keycloak_token]. *)
Definition _try_keycloak_token (E : env) (st : Settings) (base : string)
  : M TTSClient (option string) :=
  let token_url := rstrip_slash base ++ "/token" in
  let payload :=
    client_credentials (KEYCLOAK_CLIENT_ID st) (KEYCLOAK_CLIENT_SECRET st) in
  try_except
    (resp <- requests_post E token_url payload (Some 10%Z) ;;
     if (status_code resp =? 200)%Z then
       (token <- json_access_token resp ;;
        if truthy_opt token then ret token
        else
          (log ERROR "TTSClient: Keycloak response missing access_token" ;;
           ret None))
     else
       (log ERROR "TTSClient: Keycloak token request failed %s: %s" ;;
        ret None))
    (fun e =>
       log ERROR "TTSClient: Keycloak token request error: %s" ;;
       ret None).

(** The body of [TTSClient.__init__] after [model] and [base_url] are
    set. *)
Definition init_auth (E : env) (st : Settings) (api_key_arg : option string)
  : M TTSClient unit :=
  self <- get ;;
  if negb (truthy_opt (base_url self)) then
    log ERROR "TTSClient: TTS_BASE_URL is not set, gateway is required"
  else
    (let base := rstrip_slash (or_empty (base_url self)) in
     let final_base := tts_final_base (or_empty (base_url self)) in
     (if truthy_opt (KEYCLOAK_CLIENT_ID st)
         && truthy_opt (KEYCLOAK_CLIENT_SECRET st)
      then
        (token <- _try_keycloak_token E st base ;;
         if truthy_opt token then
           (assign_auth token "keycloak" ;;
            log INFO "TTSClient: using Keycloak access token")
         else
           log WARNING
             "TTSClient: Keycloak auth failed, will try TTS_API_KEY")
      else ret tt) ;;
     self <- get ;;
     (if negb (truthy_opt (api_key self)) then
        (emit (Consult StaticKey) ;;
         if truthy_opt (or_else api_key_arg (TTS_API_KEY st)) then
           (assign_auth (or_else api_key_arg (TTS_API_KEY st)) "tts_api_key" ;;
            log INFO "TTSClient: using TTS_API_KEY")
         else ret tt)
      else ret tt) ;;
     self <- get ;;
     if negb (truthy_opt (api_key self)) then
       log ERROR
         ("TTSClient: no auth configured, set either Keycloak credentials "
          ++ "or TTS_API_KEY")
     else
       (assign_client
          {| api_key_of := api_key self; base_url_of := final_base |} ;;
        log INFO
          "TTSClient: configured with base_url=%s, model=%s, auth_mode=%s")).

Definition new (st : Settings) (base_url_arg model_arg : option string)
  : TTSClient :=
  {| model := or_empty (or_else model_arg (Some (TTS_MODEL st)));
     auth_mode := "none"; client := None;
     base_url := or_else base_url_arg (TTS_BASE_URL st);
     api_key := None |}.

(** [TTSClient.__init__]. *)
Definition __init__ (E : env) (st : Settings)
    (api_key_arg base_url_arg model_arg : option string)
  : result unit * TTSClient * world :=
  run (init_auth E st api_key_arg) (new st base_url_arg model_arg).

(** *** Batch generation *)

Definition bytes : Type := list Byte.byte.

(** A [pathlib.Path] built with [/]. *)
Inductive Path : Type :=
| PurePath (s : string)
| Div (parent : Path) (name : string).

Fixpoint zeros (n : nat) : string :=
  match n with
  | 0 => ""
  | Datatypes.S k => String "0" (zeros k)
  end.

(** [f"{i:03d}"]. *)
Definition format_03d (i : nat) : string :=
  let digits := NilEmpty.string_of_uint (Nat.to_uint i) in
  zeros (3 - String.length digits) ++ digits.

(** [output_dir / f"segment_{i:03d}.mp3"]. *)
Definition segment_path (output_dir : Path) (i : nat) : Path :=
  Div output_dir ("segment_" ++ format_03d i ++ ".mp3").

(** One coroutine [self.generate_speech(text, voice, output_path)], created
    but not yet started. *)
Record task : Type := {
  task_text : string;
  task_voice : string;
  task_output_path : Path
}.

(** [enumerate(xs)], counting from [i]. *)
Fixpoint enumerate_from {A} (i : nat) (xs : list A) : list (nat * A) :=
  match xs with
  | [] => []
  | x :: xs' => (i, x) :: enumerate_from (Datatypes.S i) xs'
  end.

(** The loop over [enumerate(zip(texts, voices))]: the tasks, whose paths
    are the list [output_paths]. *)
Definition make_tasks (texts voices : list string) (output_dir : Path)
  : list task :=
  map (fun '(i, (text, voice)) =>
         {| task_text := text; task_voice := voice;
            task_output_path := segment_path output_dir i |})
      (enumerate_from 0 (combine texts voices)).

Definition output_paths (texts voices : list string) (output_dir : Path)
  : list Path :=
  map task_output_path (make_tasks texts voices output_dir).

(** The speech endpoint: the outcome of the call made for task [i]. *)
Inductive speech_outcome : Type :=
| SpeechRaises (e : exn)
| SpeechReturns (content : bytes).

Definition speech_env : Type := nat -> string -> string -> speech_outcome.

(** What the batch does to the outside. *)
Inductive io : Type :=
| LogIO (lvl : level) (msg : string)
| Mkdir (p : Path)
| SpeechCreate (model voice input : string)
| WriteFile (p : Path) (data : bytes).

(** [asyncio.Semaphore(value)]. *)
Definition Semaphore (value : Z) : result nat :=
  if (value <? 0)%Z
  then Raise (Exc "ValueError" "Semaphore initial value must be >= 0")
  else Ok (Z.to_nat value).

(** Where a [bounded(task)] stands: waiting for the semaphore, holding it
    with its remote call outstanding, or finished. *)
Inductive phase : Type :=
| Pending
| InFlight
| Done (audio : bytes)
| Failed (e : exn).

(** The event loop's view of [asyncio.gather] over the [bounded(t)]. *)
Record pool : Type := {
  sem : nat;
  phases : list phase;
  first_error : option exn;
  ios : list io
}.

(** The two resumptions of a [bounded(task)]: entering the semaphore and
    running [generate_speech] up to its [await], and resuming from the
    [await] down to the release of the semaphore. *)
Inductive action : Type :=
| Start (i : nat)
| Complete (i : nat).

Fixpoint update {A} (i : nat) (x : A) (l : list A) : list A :=
  match l, i with
  | [], _ => []
  | _ :: t, 0 => x :: t
  | h :: t, Datatypes.S k => h :: update k x t
  end.

Definition first_of (old : option exn) (e : exn) : option exn :=
  match old with
  | Some e0 => Some e0
  | None => Some e
  end.

Definition parent_of (p : Path) : Path :=
  match p with
  | Div parent _ => parent
  | PurePath s => PurePath s
  end.

Definition step (self : TTSClient) (sp : speech_env) (tasks : list task)
    (a : action) (p : pool) : option pool :=
  match a with
  | Start i =>
      match nth_error (phases p) i, nth_error tasks i with
      | Some Pending, Some t =>
          match sem p with
          | 0 => None
          | Datatypes.S k =>
              match client self with
              | None =>
                  let e :=
                    Exc "RuntimeError"
                      ("TTSClient is not configured, check TTS_BASE_URL "
                       ++ "and auth settings") in
                  Some {| sem := Datatypes.S k;
                          phases := update i (Failed e) (phases p);
                          first_error := first_of (first_error p) e;
                          ios := ios p |}
              | Some _ =>
                  Some {| sem := k;
                          phases := update i InFlight (phases p);
                          first_error := first_error p;
                          ios := ios p ++
                            [LogIO INFO
                               "Generating speech: voice=%s, length=%d chars";
                             SpeechCreate (model self) (task_voice t)
                               (task_text t)] |}
              end
          end
      | _, _ => None
      end
  | Complete i =>
      match nth_error (phases p) i, nth_error tasks i with
      | Some InFlight, Some t =>
          match sp i (task_text t) (task_voice t) with
          | SpeechReturns audio =>
              Some {| sem := Datatypes.S (sem p);
                      phases := update i (Done audio) (phases p);
                      first_error := first_error p;
                      ios := ios p ++
                        [Mkdir (parent_of (task_output_path t));
                         WriteFile (task_output_path t) audio;
                         LogIO INFO "Saved audio to %s";
                         LogIO INFO "Generated %d bytes of audio"] |}
          | SpeechRaises e =>
              Some {| sem := Datatypes.S (sem p);
                      phases := update i (Failed e) (phases p);
                      first_error := first_of (first_error p) e;
                      ios := ios p ++
                        [LogIO ERROR "Speech generation failed: %s"] |}
          end
      | _, _ => None
      end
  end.

(** A schedule is the order in which the event loop resumes the tasks. *)
Fixpoint exec (self : TTSClient) (sp : speech_env) (tasks : list task)
    (sched : list action) (p : pool) : option pool :=
  match sched with
  | [] => Some p
  | a :: sched' =>
      match step self sp tasks a p with
      | Some p' => exec self sp tasks sched' p'
      | None => None
      end
  end.

Definition is_in_flight (ph : phase) : bool :=
  match ph with InFlight => true | _ => false end.

Definition is_done (ph : phase) : bool :=
  match ph with Done _ => true | _ => false end.

(** The number of remote calls outstanding. *)
Definition in_flight (p : pool) : nat :=
  List.length (filter is_in_flight (phases p)).

Definition pool0 (value : nat) (tasks : list task) (before : list io)
  : pool :=
  {| sem := value; phases := map (fun _ => Pending) tasks;
     first_error := None; ios := before |}.

(** What [await asyncio.gather] gives once the pool is [p]: the first
    exception raised by a task, the results when all are done, nothing
    while it is still waiting. *)
Definition gather (p : pool) : option (result unit) :=
  match first_error p with
  | Some e => Some (Raise e)
  | None => if forallb is_done (phases p) then Some (Ok tt) else None
  end.

(** [TTSClient.generate_speech_batch] under the schedule [sched]: [None]
    when [sched] is not a run of the event loop that lets [gather]
    finish. *)
Definition generate_speech_batch (self : TTSClient) (st : Settings)
    (sp : speech_env) (texts voices : list string) (output_dir : Path)
    (sched : list action) : option (result (list Path) * list io) :=
  let tasks := make_tasks texts voices output_dir in
  let paths := map task_output_path tasks in
  match Semaphore (MAX_CONCURRENT_REQUESTS st) with
  | Raise e => Some (Raise e, [Mkdir output_dir])
  | Ok value =>
      match exec self sp tasks sched (pool0 value tasks [Mkdir output_dir])
      with
      | None => None
      | Some p =>
          match gather p with
          | None => None
          | Some (Raise e) => Some (Raise e, ios p)
          | Some (Ok _) =>
              Some (Ok paths,
                    (ios p ++ [LogIO INFO "Generated %d audio segments"])%list)
          end
      end
  end.

(** The pool's invariants: the calls in flight and the free permits add up
    to the semaphore's initial value, and a finished task has written the
    audio of its own text and voice to its own path. *)
Definition balanced (value : nat) (p : pool) : Prop :=
  in_flight p + sem p = value.

Definition slots_filled (sp : speech_env) (tasks : list task) (p : pool)
  : Prop :=
  forall i audio,
    nth_error (phases p) i = Some (Done audio) ->
    exists t,
      nth_error tasks i = Some t
      /\ sp i (task_text t) (task_voice t) = SpeechReturns audio
      /\ In (WriteFile (task_output_path t) audio) (ios p).


End PdfPodcastTTS.

(** ** Concrete gateways and configurations *)

Module Scenario.
Import Py Eff.

Definition down : exn := Exc "APIConnectionError" "Connection error.".

(** A gateway whose token endpoint grants [tok] to every request made to
    an http(s) URL; [requests] rejects any other URL before sending. *)
Definition granting (tok : string) : env :=
  {| post := fun url _ =>
       if startswith url "http" then
         PostReturns {| status_code := 200; text := "";
                        body := JsonObject (Some tok) |}
       else
         PostRaises
           (Exc "MissingSchema" "Invalid URL: No scheme supplied.");
     chat := fun _ => ChatRaises down |}.

(** A gateway whose token endpoint answers 200 with a JSON object that
    has no [access_token]. *)
Definition no_token : env :=
  {| post := fun _ _ =>
       PostReturns {| status_code := 200; text := "{}";
                      body := JsonObject None |};
     chat := fun _ => ChatRaises down |}.

(** A completion endpoint that answers from the attempt [n] on (counted
    from 0) and is unreachable before. *)
Definition answer (s : string) : ChatCompletion :=
  {| choices := Some [ {| message := {| content := Some s |} |} ] |}.

Definition flaky (n : nat) : env :=
  {| post := fun _ _ => PostRaises down;
     chat := fun k =>
       if Nat.ltb k n then ChatRaises down
       else ChatReturns (answer "ok") |}.

(** A completion endpoint that answers every call with an empty
    [choices] list. *)
Definition no_choices : env :=
  {| post := fun _ _ => PostRaises down;
     chat := fun _ => ChatReturns {| choices := Some [] |} |}.

Definition code_translation_cfg (key : option string)
  : CodeTranslation.Config :=
  {| CodeTranslation.BASE_URL := Some "https://gw.example/";
     CodeTranslation.KEYCLOAK_CLIENT_ID := Some "api";
     CodeTranslation.KEYCLOAK_CLIENT_SECRET := Some "s3cret";
     CodeTranslation.INFERENCE_API_KEY := key;
     CodeTranslation.INFERENCE_MODEL_ENDPOINT := Some "v1/chat/completions";
     CodeTranslation.INFERENCE_MODEL_NAME :=
       "codellama/CodeLlama-34b-Instruct-hf" |}.

Definition doc_summarization_cfg : DocSummarization.Config :=
  {| DocSummarization.BASE_URL := Some "https://gw.example";
     DocSummarization.KEYCLOAK_CLIENT_ID := Some "api";
     DocSummarization.KEYCLOAK_CLIENT_SECRET := Some "s3cret";
     DocSummarization.INFERENCE_API_KEY := Some "sk-static";
     DocSummarization.INFERENCE_MODEL_ENDPOINT := "llama" |}.

Definition rag_cfg (base : string) (secret key : option string)
  : RagChatbot.Config :=
  {| RagChatbot.BASE_URL := base;
     RagChatbot.EMBEDDINGS_BASE_URL := base;
     RagChatbot.KEYCLOAK_CLIENT_ID := Some "api";
     RagChatbot.KEYCLOAK_CLIENT_SECRET := secret;
     RagChatbot.INFERENCE_API_KEY := key;
     RagChatbot.INFERENCE_MODEL_NAME := "llama" |}.

Definition llm_settings (secret key : option string)
  : PdfPodcastLLM.Settings :=
  {| PdfPodcastLLM.BASE_URL := Some "https://gw.example/";
     PdfPodcastLLM.INFERENCE_API_KEY := key;
     PdfPodcastLLM.KEYCLOAK_CLIENT_ID := "api";
     PdfPodcastLLM.KEYCLOAK_CLIENT_SECRET := secret;
     PdfPodcastLLM.INFERENCE_MODEL_NAME :=
       "deepseek-ai/DeepSeek-R1-Distill-Qwen-32B";
     PdfPodcastLLM.MAX_RETRIES := 3 |}.

Definition llm_client : PdfPodcastLLM.LLMClient :=
  {| PdfPodcastLLM.base_url := Some "https://gw.example";
     PdfPodcastLLM.client :=
       Some {| api_key_of := Some "sk-static";
               base_url_of := "https://gw.example/v1" |};
     PdfPodcastLLM.api_key := Some "sk-static";
     PdfPodcastLLM.auth_mode := "inference_api_key";
     PdfPodcastLLM.default_model :=
       Some "deepseek-ai/DeepSeek-R1-Distill-Qwen-32B" |}.

Definition code_translation_client : CodeTranslation.APIClient :=
  {| CodeTranslation.base_url := Some "https://gw.example/";
     CodeTranslation.token := None;
     CodeTranslation.api_key := Some "sk-static";
     CodeTranslation.auth_mode := "api_key" |}.

(** The object a constructor leaves behind. *)
Definition built {S : Type} (r : result unit * S * world) : S :=
  snd (fst r).

Definition tts_settings (limit : Z) : PdfPodcastTTS.Settings :=
  {| PdfPodcastTTS.TTS_MODEL := "tts-1";
     PdfPodcastTTS.TTS_BASE_URL := Some "https://api.openai.com/v1";
     PdfPodcastTTS.TTS_API_KEY := Some "sk-tts";
     PdfPodcastTTS.KEYCLOAK_CLIENT_ID := None;
     PdfPodcastTTS.KEYCLOAK_CLIENT_SECRET := None;
     PdfPodcastTTS.MAX_CONCURRENT_REQUESTS := limit |}.

Definition tts_client (limit : Z) : PdfPodcastTTS.TTSClient :=
  built (PdfPodcastTTS.__init__ no_token (tts_settings limit)
           None None None).


(** Five jobs and a run of the event loop that completes them out of
    order under a limit of 2. *)
Definition five_texts : list string := ["a"; "b"; "c"; "d"; "e"].
Definition five_voices : list string :=
  ["alloy"; "echo"; "fable"; "onyx"; "nova"].


(** A speech endpoint that returns one byte per call. *)
Definition speech_ok : PdfPodcastTTS.speech_env :=
  fun _ _ _ => PdfPodcastTTS.SpeechReturns [Byte.x52].

End Scenario.
From Stdlib Require Import DecimalNat Permutation.


(** ** The process-wide client instances *)

Module Singleton.
Import Py Eff.

(** [get_api_client]: the module-level [_api_client] is the state; the
    constructor [APIClient()] runs when it is [None], and the assignment
    happens only when the constructor returns. *)
Definition get_or_create {C} (fresh : C) (constructor : M C unit)
  : M (option C) C :=
  fun g w =>
    match g with
    | Some c => (Ok c, g, w)
    | None =>
        match constructor fresh w with
        | (Ok _, c, w') => (Ok c, Some c, w')
        | (Raise e, _, w') => (Raise e, None, w')
        end
    end.

(** code-translation [get_api_client]. *)
Definition code_translation_get (E : env) (cfg : CodeTranslation.Config)
  : M (option CodeTranslation.APIClient) CodeTranslation.APIClient :=
  get_or_create (CodeTranslation.new cfg) (CodeTranslation._init_auth E cfg).

(** doc-summarization [get_api_client]. *)
Definition doc_summarization_get (E : env) (cfg : DocSummarization.Config)
  : M (option DocSummarization.APIClient) DocSummarization.APIClient :=
  get_or_create (DocSummarization.new cfg)
    (DocSummarization._init_auth E cfg).


(** [n] calls in a row and their results, oldest first. *)
Fixpoint calls {S A} (n : nat) (m : M S A) (s : S) (w : world)
  : list (result A) * S * world :=
  match n with
  | 0 => ([], s, w)
  | Datatypes.S k =>
      match m s w with
      | (r, s', w') =>
          match calls k m s' w' with
          | (rs, s'', w'') => (r :: rs, s'', w'')
          end
      end
  end.

End Singleton.

(** ** Further methods of the pdf-podcast clients *)

Module PodcastMethods.
Import Py Eff.


(** [TTSClient.get_available_voices]. *)
Definition get_available_voices : list string :=
  ["alloy"; "echo"; "fable"; "onyx"; "nova"; "shimmer"].

(** [LLMClient.generate]: [provider] is ignored, the keyword arguments go
    to [generate_with_openai]. *)
Definition generate (E : env) (system_prompt user_prompt provider : string)
    (model : option string) : M PdfPodcastLLM.LLMClient string :=
  PdfPodcastLLM.generate_with_openai E system_prompt user_prompt model.

End PodcastMethods.

(** ** Configurations that differ in the base URL only *)

Module WithBase.

Definition code_translation (cfg : CodeTranslation.Config)
    (base : option string) : CodeTranslation.Config :=
  {| CodeTranslation.BASE_URL := base;
     CodeTranslation.KEYCLOAK_CLIENT_ID :=
       CodeTranslation.KEYCLOAK_CLIENT_ID cfg;
     CodeTranslation.KEYCLOAK_CLIENT_SECRET :=
       CodeTranslation.KEYCLOAK_CLIENT_SECRET cfg;
     CodeTranslation.INFERENCE_API_KEY :=
       CodeTranslation.INFERENCE_API_KEY cfg;
     CodeTranslation.INFERENCE_MODEL_ENDPOINT :=
       CodeTranslation.INFERENCE_MODEL_ENDPOINT cfg;
     CodeTranslation.INFERENCE_MODEL_NAME :=
       CodeTranslation.INFERENCE_MODEL_NAME cfg |}.

Definition rag (cfg : RagChatbot.Config) (base embeddings_base : string)
  : RagChatbot.Config :=
  {| RagChatbot.BASE_URL := base;
     RagChatbot.EMBEDDINGS_BASE_URL := embeddings_base;
     RagChatbot.KEYCLOAK_CLIENT_ID := RagChatbot.KEYCLOAK_CLIENT_ID cfg;
     RagChatbot.KEYCLOAK_CLIENT_SECRET :=
       RagChatbot.KEYCLOAK_CLIENT_SECRET cfg;
     RagChatbot.INFERENCE_API_KEY := RagChatbot.INFERENCE_API_KEY cfg;
     RagChatbot.INFERENCE_MODEL_NAME := RagChatbot.INFERENCE_MODEL_NAME cfg |}.

Definition llm (st : PdfPodcastLLM.Settings) (base : option string)
  : PdfPodcastLLM.Settings :=
  {| PdfPodcastLLM.BASE_URL := base;
     PdfPodcastLLM.INFERENCE_API_KEY := PdfPodcastLLM.INFERENCE_API_KEY st;
     PdfPodcastLLM.KEYCLOAK_CLIENT_ID := PdfPodcastLLM.KEYCLOAK_CLIENT_ID st;
     PdfPodcastLLM.KEYCLOAK_CLIENT_SECRET :=
       PdfPodcastLLM.KEYCLOAK_CLIENT_SECRET st;
     PdfPodcastLLM.INFERENCE_MODEL_NAME :=
       PdfPodcastLLM.INFERENCE_MODEL_NAME st;
     PdfPodcastLLM.MAX_RETRIES := PdfPodcastLLM.MAX_RETRIES st |}.

(** [slashes n] is ["/" * n]. *)
Fixpoint slashes (n : nat) : string :=
  match n with
  | 0 => ""
  | S k => String "/" (slashes k)
  end.

End WithBase.

(** ** rag-chatbot: embeddings *)

Module Embeddings.
Import Py Eff.

Section Vectors.

(** An embedding (a list of floats) is kept abstract. *)
Context {vector : Type}.

(** The [input] of [client.embeddings.create]: one text or a list. *)
Inductive embed_input : Type :=
| One (text : string)
| Many (texts : list string).

(** The embeddings endpoint: the outcome of the n-th call (counted from
    0) on its input; [data] is [[item.embedding for item in resp.data]]. *)
Inductive embed_outcome : Type :=
| EmbedRaises (e : exn)
| EmbedReturns (data : list vector).

Definition embed_env : Type := nat -> embed_input -> embed_outcome.

Inductive embed_event : Type :=
| EmbedCreate (client : OpenAI) (model : string) (input : embed_input)
| EmbedLog (lvl : level) (msg : string).

Record embed_world : Type := {
  etrace : list embed_event;
  ecalls : nat
}.

(** [client.embeddings.create(model=model, input=input)]. *)
Definition embeddings_create (X : embed_env) (client : OpenAI)
    (model : string) (input : embed_input) (w : embed_world)
  : embed_outcome * embed_world :=
  (X (ecalls w) input,
   {| etrace := etrace w ++ [EmbedCreate client model input];
      ecalls := S (ecalls w) |}).

Definition elog (lvl : level) (msg : string) (w : embed_world)
  : embed_world :=
  {| etrace := etrace w ++ [EmbedLog lvl msg]; ecalls := ecalls w |}.

(** The client [get_embedding_client] builds. *)
Definition embedding_client (self : RagChatbot.APIClient) : OpenAI :=
  {| api_key_of := RagChatbot.api_key self;
     base_url_of :=
       Url._normalize_base (RagChatbot.embeddings_base_url self) |}.

(** [APIClient.embed_text]: [resp.data[0]] raises on an empty list. *)
Definition embed_text (X : embed_env) (EMBEDDING_MODEL_NAME : string)
    (self : RagChatbot.APIClient) (text : string) (w : embed_world)
  : result vector * embed_world :=
  match
    embeddings_create X (embedding_client self) EMBEDDING_MODEL_NAME
      (One text) w
  with
  | (EmbedRaises e, w') => (Raise e, elog ERROR "Embedding error: %s" w')
  | (EmbedReturns [], w') =>
      (Raise (Exc "IndexError" "list index out of range"),
       elog ERROR "Embedding error: %s" w')
  | (EmbedReturns (v :: _), w') => (Ok v, w')
  end.










End Vectors.

Arguments embed_outcome : clear implicits.
Arguments embed_env : clear implicits.

End Embeddings.

(** ** Text post-processing: what is kept *)

Module Kept.

(** [part] is a contiguous part of [whole]. *)
Definition part_of (part whole : string) : Prop :=
  exists before after, whole = before ++ part ++ after.

(** Model output as the prompt asks not to send it: the code in a fence
    with a language tag, and in a bare fence. *)
Definition tagged_fence (tag code : string) : string :=
  Fences.fence ++ tag ++ Fences.nl ++ code ++ Fences.nl ++ Fences.fence.

Definition bare_fence (code : string) : string :=
  Fences.fence ++ Fences.nl ++ code ++ Fences.nl ++ Fences.fence.

End Kept.

(** ** pdf-podcast TTS service: what a batch does to the outside *)

Module BatchObs.
Import Py Eff PdfPodcastTTS.

Definition is_speech_create (e : io) : bool :=
  match e with SpeechCreate _ _ _ => true | _ => false end.

(** The number of requests sent to the speech endpoint. *)
Definition speech_calls (l : list io) : nat :=
  List.length (filter is_speech_create l).

(** The files written, in the order of writing. *)
Definition written (l : list io) : list Path :=
  flat_map (fun e => match e with WriteFile p _ => [p] | _ => [] end) l.

Definition is_pending (ph : phase) : bool :=
  match ph with Pending => true | _ => false end.

Definition is_failed (ph : phase) : bool :=
  match ph with Failed _ => true | _ => false end.

(** The resumptions the event loop still owes the tasks: two for a task
    that has not started, one for a task waiting for its answer. *)
Definition remaining (p : pool) : nat :=
  2 * List.length (filter is_pending (phases p)) + in_flight p.

(** The exception [generate_speech] raises without a client. *)
Definition not_configured : exn :=
  Exc "RuntimeError"
    ("TTSClient is not configured, check TTS_BASE_URL "
     ++ "and auth settings").

(** [int(s)] for a string of decimal digits. *)
Definition parse_03d (s : string) : option nat :=
  option_map Nat.of_uint (NilEmpty.uint_of_string s).


Definition tts_settings_without_base (limit : Z) : Settings :=
  {| TTS_MODEL := "tts-1";
     TTS_BASE_URL := None;
     TTS_API_KEY := Some "sk-tts";
     KEYCLOAK_CLIENT_ID := None;
     KEYCLOAK_CLIENT_SECRET := None;
     MAX_CONCURRENT_REQUESTS := limit |}.

Definition unconfigured_client (limit : Z) : TTSClient :=
  Scenario.built
    (__init__ Scenario.no_token (tts_settings_without_base limit)
       None None None).

End BatchObs.

(** * Properties *)

(** ** Facts about the string primitives *)

Module PyFacts.
Import Py.

Section Strip.
Variable p : ascii -> bool.

Lemma lstrip_by_idem (s : string) :
  lstrip_by p (lstrip_by p s) = lstrip_by p s.
Proof.
  induction s as [|c s IH]; simpl; auto.
  destruct (p c) eqn:E; auto. simpl. now rewrite E.
Qed.

Lemma rstrip_by_cons (c : ascii) (s : string) :
  rstrip_by p (String c s) =
  if (rstrip_by p s =? "") then (if p c then "" else String c "")
  else String c (rstrip_by p s).
Proof. simpl. destruct (rstrip_by p s); reflexivity. Qed.


Lemma rstrip_by_idem (s : string) :
  rstrip_by p (rstrip_by p s) = rstrip_by p s.
Proof.
  induction s as [|c s IH]; auto.
  rewrite rstrip_by_cons.
  destruct (rstrip_by p s) eqn:E; simpl.
  - destruct (p c) eqn:Ec; simpl; auto. now rewrite Ec.
  - simpl in IH. destruct (rstrip_by p s0) eqn:E0.
    + destruct (p a); [discriminate|]. now inversion IH.
    + now inversion IH.
Qed.


Lemma endswith_refl (s : string) : endswith s s = true.
Proof. destruct s; cbn [endswith]; now rewrite String.eqb_refl. Qed.


Lemma lstrip_rstrip_comm (s : string) :
  lstrip_by p (rstrip_by p s) = rstrip_by p (lstrip_by p s).
Proof.
  induction s as [|c s IH]; auto.
  rewrite rstrip_by_cons. simpl lstrip_by at 2.
  destruct (p c) eqn:Ec.
  - rewrite <- IH. destruct (rstrip_by p s) eqn:E; simpl; auto.
    now rewrite Ec.
  - rewrite rstrip_by_cons.
    destruct (rstrip_by p s =? ""); simpl; now rewrite Ec.
Qed.

Lemma lstrip_fixed_of_rstrip (s : string) :
  lstrip_by p s = s -> lstrip_by p (rstrip_by p s) = rstrip_by p s.
Proof. intros H. now rewrite lstrip_rstrip_comm, H. Qed.
End Strip.


Lemma strip_rstrip_fixed (s : string) : rstrip (strip s) = strip s.
Proof. unfold strip, rstrip. apply rstrip_by_idem. Qed.

Lemma strip_lstrip_fixed (s : string) : lstrip (strip s) = strip s.
Proof.
  unfold strip, rstrip, lstrip.
  rewrite lstrip_rstrip_comm. now rewrite lstrip_by_idem.
Qed.




Lemma find_lower_bound (s : string) (c : ascii) : (-1 <= find s c)%Z.
Proof.
  induction s as [|d s IH]; simpl; [lia|].
  destruct (Ascii.eqb d c); [lia|].
  destruct (find s c =? -1)%Z eqn:E; lia.
Qed.

Lemma endswith_app (a suf : string) : endswith (a ++ suf) suf = true.
Proof.
  induction a as [|c a IH]; simpl.
  - apply endswith_refl.
  - rewrite IH. apply orb_true_r.
Qed.


End PyFacts.

(** ** Fence stripping *)

Module FencesSpec.
Import Py PyFacts Fences.






End FencesSpec.

(** ** Base-URL normalisation *)

Module UrlSpec.
Import Py PyFacts Url.

Lemma tts_final_base_eq (u : string) : tts_final_base u = rag_normalize u.
Proof. reflexivity. Qed.







End UrlSpec.

(** ** Authentication tiers *)

Module AuthSpec.
Import Py Eff.

Lemma granted_token_inv (o : post_outcome) (tok : string) :
  granted_token o = Some tok ->
  exists r, o = PostReturns r /\ status_code r = 200%Z
            /\ body r = JsonObject (Some tok) /\ truthy tok = true.
Proof.
  destruct o as [e|r]; simpl; [discriminate|].
  destruct (status_code r =? 200)%Z eqn:Es; [|discriminate].
  destruct (body r) as [e|[t|]] eqn:Eb; try discriminate.
  destruct (negb (t =? "")) eqn:Et; [|discriminate].
  intros H. injection H as ->. exists r. repeat split; auto.
  now apply Z.eqb_eq.
Qed.

Lemma truthy_opt_inv (o : option string) :
  truthy_opt o = true -> exists s, o = Some s /\ truthy s = true.
Proof. destruct o as [s|]; simpl; [eauto|discriminate]. Qed.

(** Unfolding of the method monad. *)
Ltac step_monad :=
  unfold run, bind, ret, raise, get, put, log, emit, try_except,
    requests_post, json_access_token, client_credentials in *;
  cbn in *.

(** *** code-translation *)

Section CodeTranslationAuth.
Import CodeTranslation.
Variable E : env.
Variable cfg : Config.

Lemma ct_keycloak_granted (tok : string) :
  keycloak_configured cfg = true ->
  granted_token (post E (token_url cfg) (credentials cfg)) = Some tok ->
  __init__ E cfg =
    (Ok tt,
     {| base_url := BASE_URL cfg; token := Some tok;
        api_key := INFERENCE_API_KEY cfg; auth_mode := "keycloak" |},
     {| trace := [Log INFO "Authenticating with Keycloak at %s";
                  TokenPost (token_url cfg) (credentials cfg) None;
                  Log INFO "Keycloak authentication successful"];
        chat_calls := 0 |}).
Proof.
  unfold keycloak_configured, token_url, credentials.
  intros Hc Hg.
  apply andb_true_iff in Hc. destruct Hc as [Hc Hs].
  apply andb_true_iff in Hc. destruct Hc as [Hb Hi].
  destruct (truthy_opt_inv _ Hb) as (base & Eb & Tb).
  rewrite Eb in *. simpl or_empty in *.
  destruct (granted_token_inv _ _ Hg) as (r & Ep & Es & Ej & Tt).
  unfold __init__, _init_auth, keycloak_tier, new.
  step_monad. rewrite Eb, Tb, Hi, Hs. step_monad.
  rewrite Ep. step_monad. rewrite Es. step_monad.
  rewrite Ej. step_monad. rewrite Tt. reflexivity.
Qed.

(** Without a granted token the resolver falls through: tier 2 decides
    between "api_key" and "open", after at most one token request. *)
Lemma ct_fallthrough :
  keycloak_configured cfg = false
  \/ granted_token (post E (token_url cfg) (credentials cfg)) = None ->
  exists tk pre,
    __init__ E cfg =
      (Ok tt,
       {| base_url := BASE_URL cfg; token := tk;
          api_key := INFERENCE_API_KEY cfg;
          auth_mode :=
            if truthy_opt (INFERENCE_API_KEY cfg) then "api_key" else "open" |},
       {| trace :=
            pre ++ Consult StaticKey ::
              (if truthy_opt (INFERENCE_API_KEY cfg)
               then [Log INFO "Using INFERENCE_API_KEY for authentication"]
               else [Consult OpenMode;
                     Log INFO
                       "No authentication configured, running in open mode"]);
          chat_calls := 0 |})
    /\ truthy_opt tk = false
    /\ consults pre = []
    /\ token_posts pre =
       (if keycloak_configured cfg
        then [TokenPost (token_url cfg) (credentials cfg) None] else [])
    /\ (keycloak_configured cfg = false -> pre = []).
Proof.
  unfold keycloak_configured, token_url, credentials, __init__, _init_auth,
    keycloak_tier, new.
  intros H. step_monad.
  destruct (BASE_URL cfg) as [base|] eqn:Eb; cbn in *.
  2:{ exists None, []. destruct (truthy_opt (INFERENCE_API_KEY cfg));
      repeat split; (reflexivity || discriminate). }
  destruct (truthy base && truthy_opt (KEYCLOAK_CLIENT_ID cfg)
            && truthy_opt (KEYCLOAK_CLIENT_SECRET cfg)) eqn:Ec; cbn in *.
  2:{ exists None, []. destruct (truthy_opt (INFERENCE_API_KEY cfg));
      repeat split; (reflexivity || discriminate). }
  destruct H as [H|H]; [discriminate|].
  destruct (post E _ _) as [e|r]; cbn in *.
  { eexists None, [_; _; _].
    destruct (truthy_opt (INFERENCE_API_KEY cfg));
      repeat split; (reflexivity || discriminate). }
  destruct (status_code r =? 200)%Z; cbn in *.
  2:{ eexists None, [_; _; _].
      destruct (truthy_opt (INFERENCE_API_KEY cfg));
        repeat split; (reflexivity || discriminate). }
  destruct (body r) as [e|[t|]]; cbn in *.
  - eexists None, [_; _; _].
    destruct (truthy_opt (INFERENCE_API_KEY cfg));
      repeat split; (reflexivity || discriminate).
  - unfold truthy. destruct (negb (t =? "")) eqn:Et; [discriminate|].
    cbn. eexists (Some t), [_; _; _].
    destruct (truthy_opt (INFERENCE_API_KEY cfg));
      repeat split; try (reflexivity || discriminate); exact Et.
  - eexists None, [_; _; _].
    destruct (truthy_opt (INFERENCE_API_KEY cfg));
      repeat split; (reflexivity || discriminate).
Qed.

End CodeTranslationAuth.

(** *** rag-chatbot *)

Section RagChatbotAuth.
Import RagChatbot.
Variable E : env.
Variable cfg : Config.

Lemma rag_keycloak_granted (tok : string) :
  keycloak_configured cfg = true ->
  granted_token (post E (token_url cfg) (credentials cfg)) = Some tok ->
  __init__ E cfg =
    (Ok tt,
     {| base_url := rstrip_slash (BASE_URL cfg);
        embeddings_base_url := rstrip_slash (EMBEDDINGS_BASE_URL cfg);
        api_key := Some tok; auth_mode := "keycloak" |},
     {| trace := [Log INFO "HTTP client initialized for gateway";
                  Log INFO "Requesting Keycloak token";
                  TokenPost (token_url cfg) (credentials cfg) None;
                  Log INFO "Gateway auth configured with Keycloak token"];
        chat_calls := 0 |}).
Proof.
  unfold keycloak_configured, token_url, credentials.
  intros Hc Hg.
  destruct (granted_token_inv _ _ Hg) as (r & Ep & Es & Ej & Tt).
  unfold __init__, _configure_auth, _try_keycloak_token, new.
  step_monad. rewrite Hc. step_monad.
  rewrite Ep. step_monad. rewrite Es. step_monad.
  rewrite Ej. step_monad. rewrite Tt. step_monad. rewrite Tt. reflexivity.
Qed.

(** Without a granted token tier 2 decides; with no static key either the
    constructor raises: there is no open tier. *)
Lemma rag_fallthrough :
  keycloak_configured cfg = false
  \/ granted_token (post E (token_url cfg) (credentials cfg)) = None ->
  exists pre,
    __init__ E cfg =
      (if truthy_opt (INFERENCE_API_KEY cfg) then
         (Ok tt,
          {| base_url := rstrip_slash (BASE_URL cfg);
             embeddings_base_url := rstrip_slash (EMBEDDINGS_BASE_URL cfg);
             api_key := INFERENCE_API_KEY cfg;
             auth_mode := "inference_api_key" |},
          {| trace :=
               Log INFO "HTTP client initialized for gateway" :: pre ++
               [Consult StaticKey;
                Log INFO
                  "Gateway auth configured with static INFERENCE_API_KEY"];
             chat_calls := 0 |})
       else
         (Raise no_gateway_auth, new cfg,
          {| trace :=
               Log INFO "HTTP client initialized for gateway" :: pre ++
               [Consult StaticKey];
             chat_calls := 0 |}))
    /\ consults pre = []
    /\ token_posts pre =
       (if keycloak_configured cfg
        then [TokenPost (token_url cfg) (credentials cfg) None] else [])
    /\ (keycloak_configured cfg = false -> pre = []).
Proof.
  unfold keycloak_configured, token_url, credentials, __init__,
    _configure_auth, _try_keycloak_token, new, no_gateway_auth.
  intros H. step_monad.
  destruct (truthy_opt (KEYCLOAK_CLIENT_ID cfg)
            && truthy_opt (KEYCLOAK_CLIENT_SECRET cfg)) eqn:Ec; cbn in *.
  2:{ exists []. destruct (truthy_opt (INFERENCE_API_KEY cfg));
      repeat split; (reflexivity || discriminate). }
  destruct H as [H|H]; [discriminate|].
  destruct (post E _ _) as [e|r]; cbn in *.
  { eexists [_; _; _].
    destruct (truthy_opt (INFERENCE_API_KEY cfg));
      repeat split; (reflexivity || discriminate). }
  destruct (status_code r =? 200)%Z; cbn in *.
  2:{ eexists [_; _; _].
      destruct (truthy_opt (INFERENCE_API_KEY cfg));
        repeat split; (reflexivity || discriminate). }
  destruct (body r) as [e|[t|]]; cbn in *.
  - eexists [_; _; _].
    destruct (truthy_opt (INFERENCE_API_KEY cfg));
      repeat split; (reflexivity || discriminate).
  - unfold truthy. destruct (negb (t =? "")) eqn:Et; [discriminate|].
    cbn. eexists [_; _; _].
    destruct (truthy_opt (INFERENCE_API_KEY cfg));
      repeat split; (reflexivity || discriminate).
  - eexists [_; _; _].
    destruct (truthy_opt (INFERENCE_API_KEY cfg));
      repeat split; (reflexivity || discriminate).
Qed.

End RagChatbotAuth.

(** *** pdf-podcast LLM service *)

Section LLMAuth.
Import PdfPodcastLLM.
Variable E : env.
Variable st : Settings.

Lemma rstrip_slash_truthy (s : string) :
  truthy (rstrip_slash s) = true -> truthy s = true.
Proof. destruct s; [discriminate|reflexivity]. Qed.

Lemma llm_keycloak_granted (tok : string) :
  keycloak_configured st = true ->
  granted_token (post E (token_url st) (credentials st)) = Some tok ->
  __init__ E st =
    (Ok tt,
     {| base_url := Some (rstrip_slash (or_empty (BASE_URL st)));
        client :=
          Some {| api_key_of := Some tok;
                  base_url_of :=
                    rstrip_slash (or_empty (BASE_URL st)) ++ "/v1" |};
        api_key := Some tok; auth_mode := "keycloak";
        default_model :=
          Some (if truthy (INFERENCE_MODEL_NAME st)
                then INFERENCE_MODEL_NAME st else "gpt-4o-mini") |},
     {| trace :=
          [TokenPost (token_url st) (credentials st) (Some 10%Z);
           Log INFO "LLMClient: using Keycloak access token for local gateway";
           Log INFO
             ("LLMClient: configured local OpenAI-compatible client "
              ++ "at %s/v1 (auth_mode=%s)")];
        chat_calls := 0 |}).
Proof.
  unfold keycloak_configured, token_url, credentials.
  intros Hc Hg.
  apply andb_true_iff in Hc. destruct Hc as [Hc Hs].
  apply andb_true_iff in Hc. destruct Hc as [Hb Hi].
  destruct (granted_token_inv _ _ Hg) as (r & Ep & Es & Ej & Tt).
  unfold __init__, init_auth, _try_keycloak_token, new in *.
  destruct (truthy_opt (BASE_URL st)) eqn:Eb; [|discriminate Hb].
  cbn in Hb.
  repeat progress (step_monad; rewrite ?Hb, ?Hi, ?Hs, ?Ep, ?Es, ?Ej, ?Tt).
  reflexivity.
Qed.

End LLMAuth.

(** *** The tier order *)

(** C1: when the Keycloak prerequisites are set and the token endpoint
    answers 200 with a non-empty access_token, the resolvers of
    code-translation, the pdf-podcast LLM service and rag-chatbot end in
    mode "keycloak" with that token as the credential (the key of the
    clients they build), and neither the static-key tier nor the open tier
    is consulted. *)
Theorem keycloak_tier_first (E : env) (tok : string) :
  (forall cfg,
      CodeTranslation.keycloak_configured cfg = true ->
      granted_token (post E (CodeTranslation.token_url cfg)
                       (CodeTranslation.credentials cfg)) = Some tok ->
      exists s w,
        CodeTranslation.__init__ E cfg = (Ok tt, s, w)
        /\ CodeTranslation.auth_mode s = "keycloak"
        /\ CodeTranslation.token s = Some tok
        /\ CodeTranslation.bearer_key s = Some tok
        /\ consults (trace w) = [])
  /\ (forall st,
        PdfPodcastLLM.keycloak_configured st = true ->
        granted_token (post E (PdfPodcastLLM.token_url st)
                         (PdfPodcastLLM.credentials st)) = Some tok ->
        exists s w cl,
          PdfPodcastLLM.__init__ E st = (Ok tt, s, w)
          /\ PdfPodcastLLM.auth_mode s = "keycloak"
          /\ PdfPodcastLLM.api_key s = Some tok
          /\ PdfPodcastLLM.client s = Some cl
          /\ api_key_of cl = Some tok
          /\ consults (trace w) = [])
  /\ (forall cfg,
        RagChatbot.keycloak_configured cfg = true ->
        granted_token (post E (RagChatbot.token_url cfg)
                         (RagChatbot.credentials cfg)) = Some tok ->
        exists s w,
          RagChatbot.__init__ E cfg = (Ok tt, s, w)
          /\ RagChatbot.auth_mode s = "keycloak"
          /\ RagChatbot.api_key s = Some tok
          /\ consults (trace w) = []).
Proof.
  split; [|split].
  - intros cfg Hc Hg. do 2 eexists.
    split; [apply (ct_keycloak_granted E cfg tok Hc Hg)|].
    destruct (granted_token_inv _ _ Hg) as (_ & _ & _ & _ & Tt).
    unfold CodeTranslation.bearer_key. cbn. rewrite Tt.
    repeat split; reflexivity.
  - intros st Hc Hg. do 3 eexists.
    split; [apply (llm_keycloak_granted E st tok Hc Hg)|].
    repeat split; reflexivity.
  - intros cfg Hc Hg. do 2 eexists.
    split; [apply (rag_keycloak_granted E cfg tok Hc Hg)|].
    repeat split; reflexivity.
Qed.

Lemma keycloak_tier_first_witness :
  (exists s w,
      CodeTranslation.__init__ (Scenario.granting "eyJhbGciOi")
        (Scenario.code_translation_cfg (Some "sk-static")) = (Ok tt, s, w)
      /\ CodeTranslation.auth_mode s = "keycloak"
      /\ CodeTranslation.token s = Some "eyJhbGciOi"
      /\ CodeTranslation.bearer_key s = Some "eyJhbGciOi"
      /\ consults (trace w) = [])
  /\ (exists s w cl,
        PdfPodcastLLM.__init__ (Scenario.granting "eyJhbGciOi")
          (Scenario.llm_settings (Some "s3cret") (Some "sk-static"))
        = (Ok tt, s, w)
        /\ PdfPodcastLLM.auth_mode s = "keycloak"
        /\ PdfPodcastLLM.api_key s = Some "eyJhbGciOi"
        /\ PdfPodcastLLM.client s = Some cl
        /\ api_key_of cl = Some "eyJhbGciOi"
        /\ consults (trace w) = [])
  /\ (exists s w,
        RagChatbot.__init__ (Scenario.granting "eyJhbGciOi")
          (Scenario.rag_cfg "https://gw.example/" (Some "s3cret")
             (Some "sk-static")) = (Ok tt, s, w)
        /\ RagChatbot.auth_mode s = "keycloak"
        /\ RagChatbot.api_key s = Some "eyJhbGciOi"
        /\ consults (trace w) = []).
Proof.
  destruct (keycloak_tier_first (Scenario.granting "eyJhbGciOi")
              "eyJhbGciOi") as (H1 & H2 & H3).
  split; [|split].
  - apply H1; reflexivity.
  - apply H2; reflexivity.
  - apply H3; reflexivity.
Defined.

(** The credential invariant on code-translation: after resolution the
    mode is one of the three, "keycloak" comes with a non-empty token and
    "api_key" with a non-empty key; a 200 answer without access_token is a
    tier failure. *)
Lemma ct_credential_nonempty (E : env) (cfg : CodeTranslation.Config) :
  exists s w,
    CodeTranslation.__init__ E cfg = (Ok tt, s, w)
    /\ (CodeTranslation.auth_mode s = "keycloak" ->
        truthy_opt (CodeTranslation.token s) = true)
    /\ (CodeTranslation.auth_mode s = "api_key" ->
        truthy_opt (CodeTranslation.api_key s) = true)
    /\ (CodeTranslation.auth_mode s = "keycloak"
        \/ CodeTranslation.auth_mode s = "api_key"
        \/ CodeTranslation.auth_mode s = "open").
Proof.
  destruct (CodeTranslation.keycloak_configured cfg) eqn:Hc.
  - destruct (granted_token
                (post E (CodeTranslation.token_url cfg)
                   (CodeTranslation.credentials cfg))) as [tok|] eqn:Hg.
    + do 2 eexists.
      split; [apply (ct_keycloak_granted E cfg tok Hc Hg)|].
      destruct (granted_token_inv _ _ Hg) as (_ & _ & _ & _ & Tt).
      cbn. repeat split; auto. discriminate.
    + destruct (ct_fallthrough E cfg (or_intror Hg))
        as (tk & pre & -> & Htk & _).
      do 2 eexists. split; [reflexivity|]. cbn.
      destruct (truthy_opt (CodeTranslation.INFERENCE_API_KEY cfg)) eqn:Ek;
        repeat split; auto; discriminate.
  - destruct (ct_fallthrough E cfg (or_introl Hc))
      as (tk & pre & -> & Htk & _).
    do 2 eexists. split; [reflexivity|]. cbn.
    destruct (truthy_opt (CodeTranslation.INFERENCE_API_KEY cfg)) eqn:Ek;
      repeat split; auto; discriminate.
Qed.

(** C2 (the code departs from the claim): in doc-summarization a 200
    answer without access_token leaves the resolver in mode "keycloak"
    with no token; the configured static key is never tried, the client
    reports itself authenticated and the clients it builds carry the
    open-mode sentinel. *)
Theorem doc_summarization_keycloak_without_token :
  DocSummarization.__init__ Scenario.no_token Scenario.doc_summarization_cfg
  = (Ok tt,
     {| DocSummarization.base_url := Some "https://gw.example";
        DocSummarization.token := None;
        DocSummarization.api_key := Some "sk-static";
        DocSummarization.auth_mode := "keycloak" |},
     {| trace :=
          [Log INFO "Authenticating with Keycloak at %s";
           TokenPost "https://gw.example/token"
             (client_credentials (Some "api") (Some "s3cret")) None;
           Log INFO "Keycloak authentication successful"];
        chat_calls := 0 |})
  /\ DocSummarization.is_authenticated
       (Scenario.built
          (DocSummarization.__init__ Scenario.no_token
             Scenario.doc_summarization_cfg)) = true
  /\ fst (fst (run (DocSummarization.get_inference_client
                     Scenario.doc_summarization_cfg)
               (Scenario.built
                  (DocSummarization.__init__ Scenario.no_token
                     Scenario.doc_summarization_cfg))))
     = Ok {| api_key_of := Some "no-auth";
             base_url_of := "https://gw.example/llama/v1" |}.
Proof. repeat split; reflexivity. Qed.

(** Partial Keycloak configuration on code-translation: no token request,
    and the first thing the resolver does is to test the static key. *)
Lemma ct_no_request_when_unconfigured (E : env)
    (cfg : CodeTranslation.Config) :
  CodeTranslation.keycloak_configured cfg = false ->
  exists s rest,
    CodeTranslation.__init__ E cfg
    = (Ok tt, s, {| trace := Consult StaticKey :: rest; chat_calls := 0 |})
    /\ token_posts (Consult StaticKey :: rest) = [].
Proof.
  intros Hc.
  destruct (ct_fallthrough E cfg (or_introl Hc))
    as (tk & pre & -> & _ & _ & _ & Hp).
  rewrite (Hp Hc). do 2 eexists. split; [reflexivity|].
  destruct (truthy_opt (CodeTranslation.INFERENCE_API_KEY cfg)); reflexivity.
Qed.

(** Missing client id or secret on rag-chatbot: no token request, the
    static key is tested next. *)
Lemma rag_no_request_without_credentials (E : env)
    (cfg : RagChatbot.Config) :
  RagChatbot.keycloak_configured cfg = false ->
  exists r s rest,
    RagChatbot.__init__ E cfg
    = (r, s,
       {| trace := Log INFO "HTTP client initialized for gateway"
                   :: Consult StaticKey :: rest;
          chat_calls := 0 |})
    /\ token_posts rest = [].
Proof.
  intros Hc.
  destruct (rag_fallthrough E cfg (or_introl Hc))
    as (pre & -> & _ & _ & Hp).
  rewrite (Hp Hc).
  destruct (truthy_opt (RagChatbot.INFERENCE_API_KEY cfg));
    do 3 eexists; split; reflexivity.
Qed.

(** C3 (the code departs from the claim): rag-chatbot tests the client id
    and the secret only, so with an empty BASE_URL it still calls
    [requests.post] on "/token" before it reaches the static key. *)
Theorem rag_token_request_without_base_url :
  RagChatbot.keycloak_configured
    (Scenario.rag_cfg "" (Some "s3cret") (Some "sk-static")) = true
  /\ RagChatbot.__init__ (Scenario.granting "eyJhbGciOi")
       (Scenario.rag_cfg "" (Some "s3cret") (Some "sk-static"))
     = (Ok tt,
        {| RagChatbot.base_url := "";
           RagChatbot.embeddings_base_url := "";
           RagChatbot.api_key := Some "sk-static";
           RagChatbot.auth_mode := "inference_api_key" |},
        {| trace :=
             [Log INFO "HTTP client initialized for gateway";
              Log INFO "Requesting Keycloak token";
              TokenPost "/token"
                (client_credentials (Some "api") (Some "s3cret")) None;
              Log ERROR "Keycloak auth error: %s";
              Consult StaticKey;
              Log INFO
                "Gateway auth configured with static INFERENCE_API_KEY"];
           chat_calls := 0 |}).
Proof. split; reflexivity. Qed.




End AuthSpec.

(** ** Generation calls: retry and response validation *)

Module GenerationSpec.
Import Py Eff Tenacity.

Ltac step_monad :=
  unfold run, bind, ret, raise, get, put, log, emit, try_except,
    chat_completions_create in *;
  cbn in *.


Lemma token_posts_app (a b : list event) :
  token_posts (a ++ b) = (token_posts a ++ token_posts b)%list.
Proof. unfold token_posts. apply filter_app. Qed.


Lemma wait_exponential_first (attempt_number : nat) :
  attempt_number <= 3 -> wait_exponential 1 4 10 attempt_number = 4%Z.
Proof.
  intros H. destruct attempt_number as [|[|[|[|n]]]]; try reflexivity. lia.
Qed.

(** *** The retrying loop *)

Section Retrying.
Context {S A : Type}.
Variable fn : M S A.
Variable s : S.
Variable f : nat -> result A.
Variable max_attempt_number : nat.
Variable wait : nat -> Z.

(** One attempt consumes one call of the endpoint, leaves the object
    alone and does not sleep. *)
Hypothesis fn_attempt :
  forall w, exists ev,
    fn s w = (f (chat_calls w), s,
              {| trace := trace w ++ ev;
                 chat_calls := Datatypes.S (chat_calls w) |})
    /\ sleeps ev = [].


End Retrying.

Ltac break_match :=
  match goal with
  | |- context [match ?x with _ => _ end] =>
      lazymatch x with
      | context [match _ with _ => _ end] => fail
      | _ => destruct x eqn:?
      end
  end.

(** *** pdf-podcast LLM service *)

Section LLMGeneration.
Import PdfPodcastLLM.
Variable E : env.
Variables system_prompt user_prompt : string.
Variable model : option string.
Variable self : LLMClient.
Variable cl : OpenAI.
Hypothesis configured : client self = Some cl.



End LLMGeneration.

(** *** code-translation and rag-chatbot: a single attempt *)

Lemma translate_code_spec (E : env) (cfg : CodeTranslation.Config)
    (source_code source_lang target_lang : string)
    (self : CodeTranslation.APIClient) (w : world) :
  truthy_opt (CodeTranslation.base_url self) = true ->
  exists ev,
    CodeTranslation.translate_code E cfg source_code source_lang
      target_lang self w
    = (match chat E (chat_calls w) with
       | ChatRaises e => Raise e
       | ChatReturns response =>
           Ok (match choices response with
               | Some (c :: _) =>
                   Fences._strip_code_fences
                     (or_empty (content (message c)))
               | _ => ""
               end)
       end, self,
       {| trace := trace w ++ ev;
          chat_calls := Datatypes.S (chat_calls w) |})
    /\ sleeps ev = []
    /\ (forall response,
          chat E (chat_calls w) = ChatReturns response ->
          truthy_choices (choices response) = false ->
          In (Log ERROR "Unexpected response structure: %r") ev).
Proof.
  intros Hb. unfold CodeTranslation.translate_code,
    CodeTranslation._get_openai_client.
  step_monad.
  destruct (CodeTranslation.base_url self) as [base|]; [|discriminate].
  cbn in Hb. rewrite Hb. step_monad.
  destruct (chat E (chat_calls w)) as [e|r]; cbn.
  { eexists [_; _; _]. rewrite <- !app_assoc.
    repeat split; try reflexivity. intros; discriminate. }
  destruct (choices r) as [[|c cs]|] eqn:Ec; cbn.
  - eexists [_; _; _]. rewrite <- !app_assoc.
    repeat split; try reflexivity. intros; cbn; auto.
  - eexists [_; _; _]. rewrite <- !app_assoc.
    repeat split; try reflexivity.
    intros resp Hr Hc. injection Hr as <-. rewrite Ec in Hc. discriminate.
  - eexists [_; _; _]. rewrite <- !app_assoc.
    repeat split; try reflexivity. intros; cbn; auto.
Qed.

Lemma complete_spec (E : env) (cfg : RagChatbot.Config) (prompt : string)
    (self : RagChatbot.APIClient) (w : world) :
  exists ev,
    RagChatbot.complete E cfg prompt self w
    = (match chat E (chat_calls w) with
       | ChatRaises e => Raise e
       | ChatReturns response =>
           Ok (match choices response with
               | Some (c :: _) => or_empty (content (message c))
               | _ => ""
               end)
       end, self,
       {| trace := trace w ++ ev;
          chat_calls := Datatypes.S (chat_calls w) |})
    /\ sleeps ev = []
    /\ (forall response,
          chat E (chat_calls w) = ChatReturns response ->
          truthy_choices (choices response) = false ->
          In (Log ERROR "Unexpected completion response: %r") ev).
Proof.
  unfold RagChatbot.complete, RagChatbot.get_inference_client.
  step_monad.
  destruct (chat E (chat_calls w)) as [e|r]; cbn.
  { eexists [_; _]. rewrite <- !app_assoc.
    repeat split; try reflexivity. intros; discriminate. }
  destruct (choices r) as [[|c cs]|] eqn:Ec; cbn.
  - eexists [_; _]. rewrite <- !app_assoc.
    repeat split; try reflexivity. intros; cbn; auto.
  - eexists [_]. split; [|split].
    + destruct (content (message c)) as [t|]; cbn; [|reflexivity].
      unfold truthy. destruct t; reflexivity.
    + reflexivity.
    + intros resp Hr Hc. injection Hr as <-. rewrite Ec in Hc.
      discriminate.
  - eexists [_; _]. rewrite <- !app_assoc.
    repeat split; try reflexivity. intros; cbn; auto.
Qed.

(** *** Authentication is attempted once *)



(** The clients of the scenarios are the ones the constructors build. *)
Lemma scenario_clients :
  Scenario.built
    (PdfPodcastLLM.__init__ (Scenario.flaky 2)
       (Scenario.llm_settings None (Some "sk-static")))
  = Scenario.llm_client
  /\ Scenario.built
       (CodeTranslation.__init__ (Scenario.flaky 1)
          (Scenario.code_translation_cfg (Some "sk-static")))
     = Scenario.code_translation_client.
Proof. split; reflexivity. Qed.

(** Two failures, then success on the third attempt: the caller gets the
    text, after two sleeps of 4 seconds. *)
Lemma generate_third_attempt_succeeds :
  exists ev,
    run (PdfPodcastLLM.generate_with_openai (Scenario.flaky 2)
           "system" "user" None) Scenario.llm_client
    = (Ok "ok", Scenario.llm_client, {| trace := ev; chat_calls := 3 |})
    /\ sleeps ev = [4; 4]%Z.
Proof. eexists. split; reflexivity. Qed.

(** Three failures: [RetryError] around the last exception. *)
Lemma generate_all_attempts_fail :
  exists ev,
    run (PdfPodcastLLM.generate_with_openai (Scenario.flaky 3)
           "system" "user" None) Scenario.llm_client
    = (Raise (RetryError Scenario.down), Scenario.llm_client,
       {| trace := ev; chat_calls := 3 |})
    /\ sleeps ev = [4; 4]%Z.
Proof. eexists. split; reflexivity. Qed.




(** A completion without choices on code-translation and rag-chatbot: the
    empty string, and an error record in the log. *)
Lemma completion_without_choices (E : env) (response : ChatCompletion) :
  truthy_choices (choices response) = false ->
  (forall cfg source_code source_lang target_lang self w,
      truthy_opt (CodeTranslation.base_url self) = true ->
      chat E (chat_calls w) = ChatReturns response ->
      exists ev,
        CodeTranslation.translate_code E cfg source_code source_lang
          target_lang self w
        = (Ok "", self,
           {| trace := trace w ++ ev;
              chat_calls := Datatypes.S (chat_calls w) |})
        /\ In (Log ERROR "Unexpected response structure: %r") ev)
  /\ (forall cfg prompt self w,
        chat E (chat_calls w) = ChatReturns response ->
        exists ev,
          RagChatbot.complete E cfg prompt self w
          = (Ok "", self,
             {| trace := trace w ++ ev;
                chat_calls := Datatypes.S (chat_calls w) |})
          /\ In (Log ERROR "Unexpected completion response: %r") ev).
Proof.
  intros Hc. split.
  - intros cfg src sl tl self w Hb Hr.
    destruct (translate_code_spec E cfg src sl tl self w Hb)
      as (ev & Ht & _ & Hlog).
    exists ev. split; [|now apply (Hlog response)].
    rewrite Ht, Hr. destruct (choices response) as [[|c cs]|];
      [reflexivity|discriminate Hc|reflexivity].
  - intros cfg prompt self w Hr.
    destruct (complete_spec E cfg prompt self w) as (ev & Ht & _ & Hlog).
    exists ev. split; [|now apply (Hlog response)].
    rewrite Ht, Hr. destruct (choices response) as [[|c cs]|];
      [reflexivity|discriminate Hc|reflexivity].
Qed.

(** C9 (the code departs from the claim): the pdf-podcast LLM call indexes
    [choices[0]] without a test, so a response with no choices raises
    IndexError on each of the three attempts and the caller gets a
    RetryError, not the empty string. *)
Theorem generate_with_openai_raises_without_choices :
  exists ev,
    run (PdfPodcastLLM.generate_with_openai Scenario.no_choices
           "system" "user" None) Scenario.llm_client
    = (Raise (RetryError (Exc "IndexError" "list index out of range")),
       Scenario.llm_client, {| trace := ev; chat_calls := 3 |})
    /\ sleeps ev = [4; 4]%Z
    /\ List.length
         (filter (fun e =>
                    match e with
                    | Log ERROR "LLM generation failed: %s" => true
                    | _ => false
                    end) ev) = 3.
Proof. eexists. repeat split; reflexivity. Qed.

End GenerationSpec.

(** ** Batch speech generation *)

Module BatchSpec.
Import Py Eff PdfPodcastTTS.

(** *** Lists updated by index *)

Section Update.
Context {A : Type}.

Lemma length_update (i : nat) (x : A) (l : list A) :
  List.length (update i x l) = List.length l.
Proof.
  revert i. induction l as [|h t IH]; intros [|i]; cbn; auto.
Qed.

Lemma nth_error_update_eq (i : nat) (x y : A) (l : list A) :
  nth_error l i = Some y -> nth_error (update i x l) i = Some x.
Proof.
  revert i. induction l as [|h t IH]; intros [|i]; cbn; try discriminate;
    auto.
Qed.

Lemma nth_error_update_neq (i j : nat) (x : A) (l : list A) :
  i <> j -> nth_error (update i x l) j = nth_error l j.
Proof.
  revert i j. induction l as [|h t IH]; intros [|i] [|j] H; cbn; auto;
    congruence.
Qed.

Lemma count_update (f : A -> bool) (i : nat) (x old : A) (l : list A) :
  nth_error l i = Some old ->
  List.length (filter f (update i x l)) + (if f old then 1 else 0)
  = List.length (filter f l) + (if f x then 1 else 0).
Proof.
  revert i. induction l as [|h t IH]; intros [|i]; cbn; try discriminate.
  - intros H. injection H as ->. destruct (f old), (f x); cbn; lia.
  - intros H. specialize (IH i H). destruct (f h); cbn; lia.
Qed.

End Update.

(** *** The loop that builds the tasks *)

Lemma length_enumerate_from {A} (i : nat) (xs : list A) :
  List.length (enumerate_from i xs) = List.length xs.
Proof. revert i. induction xs; intros i; cbn; auto. Qed.


Lemma enumerate_from_seq {A} (i : nat) (xs : list A) :
  map fst (enumerate_from i xs) = seq i (List.length xs).
Proof. revert i. induction xs; intros i; cbn; f_equal; auto. Qed.


Lemma length_make_tasks (texts voices : list string) (dir : Path) :
  List.length (make_tasks texts voices dir)
  = Nat.min (List.length texts) (List.length voices).
Proof.
  unfold make_tasks.
  now rewrite length_map, length_enumerate_from, length_combine.
Qed.


Lemma output_paths_seq (texts voices : list string) (dir : Path) :
  output_paths texts voices dir
  = map (segment_path dir)
      (seq 0 (Nat.min (List.length texts) (List.length voices))).
Proof.
  unfold output_paths, make_tasks.
  rewrite <- length_combine, <- enumerate_from_seq, !map_map.
  apply map_ext. intros [i [t v]]. reflexivity.
Qed.


(** *** The semaphore bounds the calls in flight *)

Section Pool.
Variable self : TTSClient.
Variable sp : speech_env.
Variable tasks : list task.

Lemma step_balanced (value : nat) (a : action) (p p' : pool) :
  step self sp tasks a p = Some p' -> balanced value p -> balanced value p'.
Proof.
  unfold balanced, in_flight.
  destruct a as [i|i]; cbn.
  - destruct (nth_error (phases p) i) as [[| | |]|] eqn:Ep;
      try discriminate.
    destruct (nth_error tasks i) as [t|]; [|discriminate].
    destruct (sem p) as [|k] eqn:Es; [discriminate|].
    destruct (client self); intros H; injection H as <-; cbn; intros Hb.
    + pose proof (count_update is_in_flight i InFlight Pending _ Ep) as Hc.
      cbn in Hc. lia.
    + pose proof (count_update is_in_flight i (Failed
        (Exc "RuntimeError"
           ("TTSClient is not configured, check TTS_BASE_URL "
            ++ "and auth settings"))) Pending _ Ep) as Hc.
      cbn in Hc. lia.
  - destruct (nth_error (phases p) i) as [[| | |]|] eqn:Ep;
      try discriminate.
    destruct (nth_error tasks i) as [t|]; [|discriminate].
    destruct (sp i (task_text t) (task_voice t)) as [e|audio];
      intros H; injection H as <-; cbn; intros Hb.
    + pose proof (count_update is_in_flight i (Failed e) InFlight _ Ep)
        as Hc.
      cbn in Hc. lia.
    + pose proof (count_update is_in_flight i (Done audio) InFlight _ Ep)
        as Hc.
      cbn in Hc. lia.
Qed.

Lemma step_slots_filled (a : action) (p p' : pool) :
  step self sp tasks a p = Some p' ->
  slots_filled sp tasks p -> slots_filled sp tasks p'.
Proof.
  unfold slots_filled.
  destruct a as [i|i]; cbn.
  - destruct (nth_error (phases p) i) as [[| | |]|] eqn:Ep;
      try discriminate.
    destruct (nth_error tasks i) as [t|]; [|discriminate].
    destruct (sem p) as [|k] eqn:Es; [discriminate|].
    destruct (client self); intros H; injection H as <-; cbn;
      intros Hinv j audio Hj;
      (destruct (Nat.eq_dec i j) as [<-|Hne];
       [rewrite (nth_error_update_eq _ _ _ _ Ep) in Hj; discriminate|]);
      rewrite (nth_error_update_neq _ _ _ _ Hne) in Hj;
      destruct (Hinv j audio Hj) as (t' & Ht' & Hsp & Hin);
      exists t'; repeat split; auto.
    apply in_or_app. now left.
  - destruct (nth_error (phases p) i) as [[| | |]|] eqn:Ep;
      try discriminate.
    destruct (nth_error tasks i) as [t|] eqn:Et; [|discriminate].
    destruct (sp i (task_text t) (task_voice t)) as [e|audio0] eqn:Esp;
      intros H; injection H as <-; cbn; intros Hinv j audio Hj.
    + destruct (Nat.eq_dec i j) as [<-|Hne].
      { rewrite (nth_error_update_eq _ _ _ _ Ep) in Hj. discriminate. }
      rewrite (nth_error_update_neq _ _ _ _ Hne) in Hj.
      destruct (Hinv j audio Hj) as (t' & Ht' & Hsp & Hin).
      exists t'. repeat split; auto. apply in_or_app. now left.
    + destruct (Nat.eq_dec i j) as [<-|Hne].
      { rewrite (nth_error_update_eq _ _ _ _ Ep) in Hj.
        injection Hj as <-. exists t. repeat split; auto.
        apply in_or_app. right. cbn. auto. }
      rewrite (nth_error_update_neq _ _ _ _ Hne) in Hj.
      destruct (Hinv j audio Hj) as (t' & Ht' & Hsp & Hin).
      exists t'. repeat split; auto. apply in_or_app. now left.
Qed.

Lemma step_length (a : action) (p p' : pool) :
  step self sp tasks a p = Some p' ->
  List.length (phases p') = List.length (phases p).
Proof.
  destruct a as [i|i]; cbn.
  - destruct (nth_error (phases p) i) as [[| | |]|]; try discriminate.
    destruct (nth_error tasks i); [|discriminate].
    destruct (sem p); [discriminate|].
    destruct (client self); intros H; injection H as <-; cbn;
      apply length_update.
  - destruct (nth_error (phases p) i) as [[| | |]|]; try discriminate.
    destruct (nth_error tasks i) as [t|]; [|discriminate].
    destruct (sp i (task_text t) (task_voice t));
      intros H; injection H as <-; cbn; apply length_update.
Qed.

(** The invariants hold along every schedule. *)
Lemma exec_invariants (value : nat) (sched : list action) (p p' : pool) :
  exec self sp tasks sched p = Some p' ->
  balanced value p -> slots_filled sp tasks p ->
  balanced value p' /\ slots_filled sp tasks p'
  /\ List.length (phases p') = List.length (phases p).
Proof.
  revert p. induction sched as [|a sched IH]; intros p; cbn.
  - intros H. injection H as <-. auto.
  - destruct (step self sp tasks a p) as [p1|] eqn:Es; [|discriminate].
    intros H Hb Hf.
    destruct (IH p1 H (step_balanced _ _ _ _ Es Hb)
                (step_slots_filled _ _ _ Es Hf)) as (Hb' & Hf' & Hl).
    repeat split; auto. rewrite Hl. now apply step_length with a.
Qed.

Lemma pool0_invariants (value : nat) (before : list io) :
  balanced value (pool0 value tasks before)
  /\ slots_filled sp tasks (pool0 value tasks before).
Proof.
  split.
  - unfold balanced, in_flight, pool0. cbn.
    induction tasks as [|t ts IH]; cbn; auto.
  - intros i audio. unfold pool0. cbn. rewrite nth_error_map.
    destruct (nth_error tasks i); discriminate.
Qed.

Lemma length_pool0 (value : nat) (before : list io) :
  List.length (phases (pool0 value tasks before)) = List.length tasks.
Proof. unfold pool0. cbn. apply length_map. Qed.




End Pool.







End BatchSpec.

(** * Further properties of the clients *)

(** ** More facts about strings *)

Module StrFacts.

Lemma length_append (a b : string) :
  String.length (a ++ b) = String.length a + String.length b.
Proof. induction a; cbn; auto. Qed.

Lemma append_assoc (a b c : string) : (a ++ b) ++ c = a ++ b ++ c.
Proof. induction a; cbn; congruence. Qed.

Lemma append_nil_r (a : string) : a ++ "" = a.
Proof. induction a; cbn; congruence. Qed.

End StrFacts.

(** ** The process-wide instances resolve once *)

Module SingletonSpec.
Import Py Eff Singleton.

Ltac step_monad :=
  unfold run, bind, ret, raise, get, put, log, emit, try_except,
    requests_post, json_access_token, client_credentials in *;
  cbn in *.

Ltac break_match :=
  match goal with
  | |- context [match ?x with _ => _ end] =>
      lazymatch x with
      | context [match _ with _ => _ end] => fail
      | _ => destruct x eqn:?
      end
  end.

Lemma token_posts_split (a b : list event) :
  token_posts (a ++ b) = (token_posts a ++ token_posts b)%list.
Proof. unfold token_posts. apply filter_app. Qed.

Section Generic.
Context {C : Type}.
Variable fresh : C.
Variable constructor : M C unit.

(** Once the instance exists every call returns it and does nothing
    else. *)
Lemma calls_cached (n : nat) (c : C) (w : world) :
  calls n (get_or_create fresh constructor) (Some c) w
  = (repeat (Ok c) n, Some c, w).
Proof. induction n as [|n IH]; cbn; [reflexivity|]. now rewrite IH. Qed.

Lemma calls_created (n : nat) (c c0 : C) (w w' : world) :
  constructor fresh w = (Ok tt, c, w') ->
  calls (Datatypes.S n) (get_or_create fresh constructor) None w
  = (repeat (Ok c) (Datatypes.S n), Some c, w').
Proof.
  intros H. cbn [calls]. unfold get_or_create at 1. rewrite H.
  now rewrite calls_cached.
Qed.


(** A constructor whose behaviour does not depend on the world it starts
    in: the same result, the same object, the same records appended. *)
Variable r0 : result unit.
Variable c0 : C.
Variable ev0 : list event.
Hypothesis frame :
  forall w,
    constructor fresh w
    = (r0, c0, {| trace := trace w ++ ev0; chat_calls := chat_calls w |}).

Lemma calls_after_success (n : nat) (w : world) :
  r0 = Ok tt ->
  calls (Datatypes.S n) (get_or_create fresh constructor) None w
  = (repeat (Ok c0) (Datatypes.S n), Some c0,
     {| trace := trace w ++ ev0; chat_calls := chat_calls w |}).
Proof.
  intros H. apply calls_created; [exact c0|]. now rewrite frame, H.
Qed.


End Generic.

(** Auth resolution of code-translation from any state and world: it
    returns, appends its records to the trace and posts at most once. *)
Lemma ct_init_auth_total (E : env) (cfg : CodeTranslation.Config)
    (s : CodeTranslation.APIClient) (w : world) :
  exists c ev,
    CodeTranslation._init_auth E cfg s w
    = (Ok tt, c, {| trace := trace w ++ ev; chat_calls := chat_calls w |})
    /\ List.length (token_posts ev) <= 1.
Proof.
  unfold CodeTranslation._init_auth, CodeTranslation.keycloak_tier.
  step_monad.
  repeat (break_match; step_monad);
    rewrite <- ?app_assoc; cbn [app];
    do 2 eexists; (split; [reflexivity|]); cbn; lia.
Qed.

Lemma doc_init_auth_total (E : env) (cfg : DocSummarization.Config)
    (s : DocSummarization.APIClient) (w : world) :
  exists c ev,
    DocSummarization._init_auth E cfg s w
    = (Ok tt, c, {| trace := trace w ++ ev; chat_calls := chat_calls w |})
    /\ List.length (token_posts ev) <= 1.
Proof.
  unfold DocSummarization._init_auth, DocSummarization.keycloak_tier.
  step_monad.
  repeat (break_match; step_monad);
    rewrite <- ?app_assoc; cbn [app];
    do 2 eexists; (split; [reflexivity|]); cbn; lia.
Qed.

Ltac frame_proof :=
  intros [t n]; step_monad;
  repeat (break_match; step_monad);
  rewrite <- ?app_assoc, ?app_nil_r; reflexivity.

Lemma ct_constructor_frame (E : env) (cfg : CodeTranslation.Config)
    (s : CodeTranslation.APIClient) :
  forall w,
    CodeTranslation._init_auth E cfg s w
    = (fst (fst (CodeTranslation._init_auth E cfg s world0)),
       snd (fst (CodeTranslation._init_auth E cfg s world0)),
       {| trace :=
            trace w
            ++ trace (snd (CodeTranslation._init_auth E cfg s world0));
          chat_calls := chat_calls w |}).
Proof.
  unfold CodeTranslation._init_auth, CodeTranslation.keycloak_tier, world0.
  frame_proof.
Qed.

Lemma doc_constructor_frame (E : env) (cfg : DocSummarization.Config)
    (s : DocSummarization.APIClient) :
  forall w,
    DocSummarization._init_auth E cfg s w
    = (fst (fst (DocSummarization._init_auth E cfg s world0)),
       snd (fst (DocSummarization._init_auth E cfg s world0)),
       {| trace :=
            trace w
            ++ trace (snd (DocSummarization._init_auth E cfg s world0));
          chat_calls := chat_calls w |}).
Proof.
  unfold DocSummarization._init_auth, DocSummarization.keycloak_tier, world0.
  frame_proof.
Qed.


(** X1: code-translation and doc-summarization resolve authentication
    once per process: any number of [get_api_client] calls returns the
    client the first call built, and only the first call acts on the
    outside, with at most one token request. *)
Theorem singleton_resolves_once (E : env) (n : nat) (w : world) :
  (forall cfg,
      calls (Datatypes.S n) (code_translation_get E cfg) None w
      = (repeat (Ok (Scenario.built (CodeTranslation.__init__ E cfg)))
           (Datatypes.S n),
         Some (Scenario.built (CodeTranslation.__init__ E cfg)),
         {| trace :=
              trace w ++ trace (snd (CodeTranslation.__init__ E cfg));
            chat_calls := chat_calls w |})
      /\ List.length
           (token_posts (trace (snd (CodeTranslation.__init__ E cfg))))
         <= 1)
  /\ (forall cfg,
        calls (Datatypes.S n) (doc_summarization_get E cfg) None w
        = (repeat (Ok (Scenario.built (DocSummarization.__init__ E cfg)))
             (Datatypes.S n),
           Some (Scenario.built (DocSummarization.__init__ E cfg)),
           {| trace :=
                trace w ++ trace (snd (DocSummarization.__init__ E cfg));
              chat_calls := chat_calls w |})
        /\ List.length
             (token_posts (trace (snd (DocSummarization.__init__ E cfg))))
           <= 1).
Proof.
  split; intros cfg.
  - destruct (ct_init_auth_total E cfg (CodeTranslation.new cfg) world0)
      as (c & ev & Hc & Hp).
    split.
    + unfold code_translation_get.
      apply (calls_after_success _ _ _ _ _
               (ct_constructor_frame E cfg (CodeTranslation.new cfg))).
      now rewrite Hc.
    + unfold CodeTranslation.__init__, run. now rewrite Hc.
  - destruct (doc_init_auth_total E cfg (DocSummarization.new cfg) world0)
      as (c & ev & Hc & Hp).
    split.
    + unfold doc_summarization_get.
      apply (calls_after_success _ _ _ _ _
               (doc_constructor_frame E cfg (DocSummarization.new cfg))).
      now rewrite Hc.
    + unfold DocSummarization.__init__, run. now rewrite Hc.
Qed.


End SingletonSpec.

(** ** What the constructors leave behind *)

Module AuthInvariants.
Import Py Eff.

Ltac step_monad :=
  unfold run, bind, ret, raise, get, put, log, emit, try_except,
    requests_post, json_access_token, client_credentials in *;
  cbn in *.

Ltac break_match :=
  match goal with
  | |- context [match ?x with _ => _ end] =>
      lazymatch x with
      | context [match _ with _ => _ end] => fail
      | _ => destruct x eqn:?
      end
  end.



Ltac use_equations :=
  repeat match goal with
         | H : ?x = _ |- context [?x] => rewrite H
         end.





(** *** Client keys and base URLs *)



Lemma rstrip_slash_slashes (b : string) (n : nat) :
  rstrip_slash (b ++ WithBase.slashes n) = rstrip_slash b.
Proof.
  unfold rstrip_slash.
  assert (Hz : rstrip_by is_slash (WithBase.slashes n) = "").
  { induction n as [|n IH]; [reflexivity|].
    cbn [WithBase.slashes]. rewrite PyFacts.rstrip_by_cons, IH.
    reflexivity. }
  induction b as [|c b IH]; [exact Hz|].
  change (String c b ++ WithBase.slashes n)
    with (String c (b ++ WithBase.slashes n)).
  now rewrite !PyFacts.rstrip_by_cons, IH.
Qed.


(** X7: after code-translation's resolution, [is_authenticated] holds
    exactly when the mode is not "open"; an authenticated client sends its
    non-empty token or static key, an unauthenticated one the sentinel
    "no-auth". *)
Theorem ct_authenticated_iff_credential (E : env)
    (cfg : CodeTranslation.Config) :
  exists s w,
    CodeTranslation.__init__ E cfg = (Ok tt, s, w)
    /\ CodeTranslation.is_authenticated s
       = negb (CodeTranslation.auth_mode s =? "open")
    /\ truthy_opt (CodeTranslation.bearer_key s) = true
    /\ (if CodeTranslation.is_authenticated s then
          (CodeTranslation.auth_mode s = "keycloak"
           /\ CodeTranslation.bearer_key s = CodeTranslation.token s)
          \/ (CodeTranslation.auth_mode s = "api_key"
              /\ CodeTranslation.bearer_key s = CodeTranslation.api_key s)
        else
          CodeTranslation.auth_mode s = "open"
          /\ CodeTranslation.bearer_key s = Some "no-auth").
Proof.
  assert (Hfall :
            CodeTranslation.keycloak_configured cfg = false
            \/ granted_token
                 (post E (CodeTranslation.token_url cfg)
                    (CodeTranslation.credentials cfg)) = None ->
            exists s w,
              CodeTranslation.__init__ E cfg = (Ok tt, s, w)
              /\ CodeTranslation.is_authenticated s
                 = negb (CodeTranslation.auth_mode s =? "open")
              /\ truthy_opt (CodeTranslation.bearer_key s) = true
              /\ (if CodeTranslation.is_authenticated s then
                    (CodeTranslation.auth_mode s = "keycloak"
                     /\ CodeTranslation.bearer_key s
                        = CodeTranslation.token s)
                    \/ (CodeTranslation.auth_mode s = "api_key"
                        /\ CodeTranslation.bearer_key s
                           = CodeTranslation.api_key s)
                  else
                    CodeTranslation.auth_mode s = "open"
                    /\ CodeTranslation.bearer_key s = Some "no-auth")).
  { intros H.
    destruct (AuthSpec.ct_fallthrough E cfg H)
      as (tk & pre & -> & Htk & _).
    do 2 eexists. split; [reflexivity|].
    unfold CodeTranslation.is_authenticated, CodeTranslation.bearer_key.
    cbn.
    destruct (truthy_opt (CodeTranslation.INFERENCE_API_KEY cfg)) eqn:Ek;
      cbn; rewrite ?Ek; cbn; repeat split; auto. }
  destruct (CodeTranslation.keycloak_configured cfg) eqn:Hc; [|auto].
  destruct (granted_token
              (post E (CodeTranslation.token_url cfg)
                 (CodeTranslation.credentials cfg))) as [tok|] eqn:Hg;
    [|auto].
  do 2 eexists.
  split; [apply (AuthSpec.ct_keycloak_granted E cfg tok Hc Hg)|].
  destruct (AuthSpec.granted_token_inv _ _ Hg) as (_ & _ & _ & _ & Tt).
  unfold CodeTranslation.is_authenticated, CodeTranslation.bearer_key.
  cbn. rewrite Tt. cbn. repeat split; auto.
Qed.

(** X8: trailing slashes of the configured base URL make no difference:
    the pdf-podcast LLM and rag-chatbot constructors behave and end
    identically, code-translation posts to the same token endpoint, logs
    the same records and builds the same client, and the TTS client's
    final base URL is the same. *)
Theorem trailing_slashes_ignored (E : env) (b : string) (n : nat) :
  b <> "" ->
  (forall st,
      PdfPodcastLLM.__init__ E
        (WithBase.llm st (Some (b ++ WithBase.slashes n)))
      = PdfPodcastLLM.__init__ E (WithBase.llm st (Some b)))
  /\ (forall cfg e,
        RagChatbot.__init__ E
          (WithBase.rag cfg (b ++ WithBase.slashes n)
             (e ++ WithBase.slashes n))
        = RagChatbot.__init__ E (WithBase.rag cfg b e))
  /\ (forall cfg,
        let long :=
          CodeTranslation.__init__ E
            (WithBase.code_translation cfg
               (Some (b ++ WithBase.slashes n))) in
        let short :=
          CodeTranslation.__init__ E
            (WithBase.code_translation cfg (Some b)) in
        trace (snd long) = trace (snd short)
        /\ CodeTranslation.auth_mode (Scenario.built long)
           = CodeTranslation.auth_mode (Scenario.built short)
        /\ CodeTranslation.token (Scenario.built long)
           = CodeTranslation.token (Scenario.built short)
        /\ forall w,
            fst (fst (CodeTranslation._get_openai_client cfg
                        (Scenario.built long) w))
            = fst (fst (CodeTranslation._get_openai_client cfg
                          (Scenario.built short) w)))
  /\ Url.tts_final_base (b ++ WithBase.slashes n) = Url.tts_final_base b.
Proof.
  intros Hb.
  assert (Tb : truthy b = true) by (destruct b; [congruence|reflexivity]).
  assert (Tl : truthy (b ++ WithBase.slashes n) = true)
    by (destruct b; [congruence|reflexivity]).
  split; [|split; [|split]].
  - intros st. unfold PdfPodcastLLM.__init__, PdfPodcastLLM.new,
      WithBase.llm.
    cbn. fold (truthy (b ++ WithBase.slashes n)). fold (truthy b).
    rewrite Tb, Tl. fold rstrip_slash.
    rewrite rstrip_slash_slashes. reflexivity.
  - intros cfg e. unfold RagChatbot.__init__, RagChatbot.new, WithBase.rag.
    cbn. fold rstrip_slash. rewrite !rstrip_slash_slashes. reflexivity.
  - intros cfg. cbn zeta.
    unfold CodeTranslation.__init__, CodeTranslation._init_auth,
      CodeTranslation.keycloak_tier, CodeTranslation.new,
      CodeTranslation._get_openai_client, CodeTranslation.bearer_key,
      WithBase.code_translation, Scenario.built.
    unfold truthy in Tb, Tl.
    step_monad. unfold truthy. rewrite ?Tb, ?Tl. fold rstrip_slash.
    rewrite ?rstrip_slash_slashes. step_monad.
    repeat (break_match; step_monad; unfold truthy;
            rewrite ?Tb, ?Tl; fold rstrip_slash;
            rewrite ?rstrip_slash_slashes);
      try congruence; repeat split; reflexivity.
  - unfold Url.tts_final_base. now rewrite rstrip_slash_slashes.
Qed.

Lemma trailing_slashes_ignored_witness :
  PdfPodcastLLM.__init__ (Scenario.granting "eyJhbGciOi")
    (WithBase.llm (Scenario.llm_settings (Some "s3cret") None)
       (Some ("https://gw.example" ++ WithBase.slashes 2)))
  = PdfPodcastLLM.__init__ (Scenario.granting "eyJhbGciOi")
      (WithBase.llm (Scenario.llm_settings (Some "s3cret") None)
         (Some "https://gw.example")).
Proof.
  apply (trailing_slashes_ignored (Scenario.granting "eyJhbGciOi")
           "https://gw.example" 2).
  discriminate.
Defined.

End AuthInvariants.

(** ** Generation calls beyond the retried completion *)

Module GenerationExtras.
Import Py Eff Tenacity Embeddings.

Ltac step_monad :=
  unfold run, bind, ret, raise, get, put, log, emit, try_except,
    chat_completions_create in *;
  cbn in *.

(** X9: on a client that was never configured the pdf-podcast LLM call
    reaches no endpoint: each of the three attempts raises ValueError at
    once, the decorator sleeps 4 seconds twice in between, and the caller
    gets a RetryError around the ValueError. *)
Theorem generate_unconfigured (E : env)
    (system_prompt user_prompt provider : string) (model : option string)
    (self : PdfPodcastLLM.LLMClient) (w : world) :
  PdfPodcastLLM.client self = None ->
  PodcastMethods.generate E system_prompt user_prompt provider model self w
  = (Raise
       (RetryError
          (Exc "ValueError"
             ("LLM client is not configured. Check BASE_URL and either "
              ++ "KEYCLOAK_CLIENT_SECRET or INFERENCE_API_KEY."))),
     self,
     {| trace := trace w ++ [Sleep 4; Sleep 4];
        chat_calls := chat_calls w |}).
Proof.
  intros H. unfold PodcastMethods.generate,
    PdfPodcastLLM.generate_with_openai, retry.
  cbn [retrying]. unfold PdfPodcastLLM.generate_once.
  step_monad. repeat (rewrite H; cbn).
  rewrite <- app_assoc. reflexivity.
Qed.

Lemma generate_unconfigured_witness :
  PdfPodcastLLM.client
    (Scenario.built
       (PdfPodcastLLM.__init__ Scenario.no_token
          (Scenario.llm_settings None None))) = None
  /\ fst (fst (PodcastMethods.generate Scenario.no_token "system" "user"
                 "openai" None
                 (Scenario.built
                    (PdfPodcastLLM.__init__ Scenario.no_token
                       (Scenario.llm_settings None None))) world0))
     = Raise
         (RetryError
            (Exc "ValueError"
               ("LLM client is not configured. Check BASE_URL and either "
                ++ "KEYCLOAK_CLIENT_SECRET or INFERENCE_API_KEY."))).
Proof.
  split; [reflexivity|].
  rewrite (generate_unconfigured Scenario.no_token "system" "user" "openai"
             None _ world0); reflexivity.
Defined.

(** *** Batching of [embed_texts] *)





Section EmbedTexts.
Context {vector : Type}.
Variable X : embed_env vector.
Variable client : OpenAI.
Variable model : string.
Variable texts : list string.


End EmbedTexts.


End GenerationExtras.

(** ** Fence stripping: what is kept *)

Module FencesExtras.
Import Py PyFacts Fences Kept StrFacts.

Lemma part_of_refl (s : string) : part_of s s.
Proof. exists "", "". cbn. now rewrite append_nil_r. Qed.

Lemma part_of_trans (a b c : string) :
  part_of a b -> part_of b c -> part_of a c.
Proof.
  intros (x & y & ->) (x' & y' & ->).
  exists (x' ++ x), (y ++ y'). now rewrite !append_assoc.
Qed.

Lemma lstrip_by_part (p : ascii -> bool) (s : string) :
  part_of (lstrip_by p s) s.
Proof.
  induction s as [|c s IH]; [apply part_of_refl|].
  cbn [lstrip_by]. destruct (p c); [|apply part_of_refl].
  destruct IH as (x & y & H). exists (String c x), y. cbn. congruence.
Qed.

Lemma rstrip_by_part (p : ascii -> bool) (s : string) :
  part_of (rstrip_by p s) s.
Proof.
  induction s as [|c s IH]; [apply part_of_refl|].
  rewrite rstrip_by_cons.
  destruct (rstrip_by p s =? "") eqn:E.
  - destruct (p c).
    + exists "", (String c s). reflexivity.
    + exists "", s. reflexivity.
  - destruct IH as (x & y & H). destruct x as [|d x].
    + exists "", y. cbn in *. congruence.
    + apply String.eqb_neq in E.
      assert (Hs : part_of (rstrip_by p s) s) by (exists (String d x), y; exact H).
      clear H.
      (* the stripped tail is a prefix of the tail *)
      assert (Hp : exists z, s = rstrip_by p s ++ z).
      { clear. induction s as [|c s IH]; [exists ""; reflexivity|].
        rewrite rstrip_by_cons. destruct (rstrip_by p s =? "").
        - destruct (p c); [exists (String c s)|exists s]; reflexivity.
        - destruct IH as (z & Hz). exists z. cbn. congruence. }
      destruct Hp as (z & Hz). exists "", z. cbn. congruence.
Qed.

Lemma substring_part (n m : nat) (s : string) : part_of (substring n m s) s.
Proof.
  revert n m. induction s as [|c s IH]; intros n m.
  - destruct n, m; apply part_of_refl.
  - destruct n as [|n].
    + destruct m as [|m].
      * exists "", (String c s). reflexivity.
      * cbn. destruct (IH 0 m) as (x & y & H).
        assert (Hp : exists z, s = substring 0 m s ++ z).
        { clear. revert m. induction s as [|c s IHs]; intros m.
          - destruct m; exists ""; reflexivity.
          - destruct m as [|m]; [exists (String c s); reflexivity|].
            cbn. destruct (IHs m) as (z & Hz). exists z. congruence. }
        destruct Hp as (z & Hz). exists "", z. cbn. congruence.
    + cbn. destruct (IH n m) as (x & y & H).
      exists (String c x), y. cbn. congruence.
Qed.

Lemma slice_part (s : string) (a b : option Z) : part_of (slice s a b) s.
Proof. unfold slice. apply substring_part. Qed.

Lemma strip_part (s : string) : part_of (strip s) s.
Proof.
  unfold strip, rstrip, lstrip.
  eapply part_of_trans; [apply rstrip_by_part|apply lstrip_by_part].
Qed.

Lemma part_of_length (a b : string) :
  part_of a b -> String.length a <= String.length b.
Proof. intros (x & y & ->). rewrite !length_append. lia. Qed.

Lemma strip_code_fences_part (text : string) :
  part_of (_strip_code_fences text) text.
Proof.
  unfold _strip_code_fences.
  set (s1 := if startswith (strip text) fence && endswith (strip text) fence
             then strip (slice (strip text) (Some 3%Z) (Some (-3)%Z))
             else strip text).
  assert (H1 : part_of s1 text).
  { unfold s1. destruct (_ && _); [|apply strip_part].
    eapply part_of_trans; [apply strip_part|].
    eapply part_of_trans; [apply slice_part|apply strip_part]. }
  destruct (negb (find s1 newline =? -1)%Z); [|exact H1].
  destruct (in_set _ language_tags); [|exact H1].
  eapply part_of_trans; [apply lstrip_by_part|].
  eapply part_of_trans; [apply slice_part|exact H1].
Qed.

(** X11: the post-processor only removes text: its result is a contiguous
    part of the model's output, so it is never longer than it. *)
Theorem strip_code_fences_keeps_a_part (text : string) :
  part_of (_strip_code_fences text) text
  /\ String.length (_strip_code_fences text) <= String.length text.
Proof.
  pose proof (strip_code_fences_part text) as H.
  split; [exact H|now apply part_of_length].
Qed.

(** *** Undoing a fence *)

Lemma rstrip_by_app_keep (p : ascii -> bool) (a b : string) :
  rstrip_by p b <> "" -> rstrip_by p (a ++ b) = a ++ rstrip_by p b.
Proof.
  intros Hb. induction a as [|c a IH]; [reflexivity|].
  change (String c a ++ b) with (String c (a ++ b)).
  rewrite rstrip_by_cons, IH.
  destruct (a ++ rstrip_by p b =? "") eqn:E; [|reflexivity].
  apply String.eqb_eq in E. destruct a; cbn in E; congruence.
Qed.

Lemma rstrip_by_app_drop (p : ascii -> bool) (a b : string) :
  rstrip_by p b = "" -> rstrip_by p (a ++ b) = rstrip_by p a.
Proof.
  intros Hb. induction a as [|c a IH]; [exact Hb|].
  change (String c a ++ b) with (String c (a ++ b)).
  now rewrite !rstrip_by_cons, IH.
Qed.

Lemma substring_middle (a m b : string) :
  substring (String.length a) (String.length m) (a ++ m ++ b) = m.
Proof.
  induction a as [|c a IH]; [|exact IH].
  cbn [String.length append]. induction m as [|d m IHm].
  - destruct b; reflexivity.
  - cbn. now rewrite IHm.
Qed.

Lemma find_after (a r : string) (c : ascii) :
  find a c = (-1)%Z ->
  find (a ++ String c r) c = Z.of_nat (String.length a).
Proof.
  induction a as [|d a IH]; intros H.
  - cbn. now rewrite Ascii.eqb_refl.
  - cbn [append find String.length] in *.
    destruct (Ascii.eqb d c); [discriminate H|].
    destruct (find a c =? -1)%Z eqn:E.
    + apply Z.eqb_eq in E. rewrite (IH E).
      destruct (Z.of_nat (String.length a) =? -1)%Z eqn:E2; [lia|lia].
    + pose proof (find_lower_bound a c). apply Z.eqb_neq in E. lia.
Qed.

Lemma strip_fixed_parts (c : string) :
  strip c = c -> lstrip c = c /\ rstrip c = c.
Proof.
  intros H. split.
  - rewrite <- H at 1. rewrite strip_lstrip_fixed. exact H.
  - rewrite <- H at 1. rewrite strip_rstrip_fixed. exact H.
Qed.

Lemma slice_inner (a m b : string) :
  b <> "" ->
  slice (a ++ m ++ b) (Some (Z.of_nat (String.length a)))
    (Some (- Z.of_nat (String.length b))%Z) = m.
Proof.
  intros Hb. assert (0 < String.length b) by (destruct b; cbn; [congruence|lia]).
  unfold slice, clamp_index. rewrite !length_append.
  destruct (Z.ltb_spec (Z.of_nat (String.length a)) 0); [lia|].
  destruct (Z.ltb_spec (- Z.of_nat (String.length b)) 0); [|lia].
  replace (Z.to_nat (Z.min (Z.of_nat (String.length a)) _))
    with (String.length a) by lia.
  match goal with
  | |- substring _ ?n _ = _ => replace n with (String.length m) by lia
  end.
  apply substring_middle.
Qed.

Lemma slice_from (a m : string) :
  slice (a ++ m) (Some (Z.of_nat (String.length a))) None = m.
Proof.
  unfold slice, clamp_index. rewrite !length_append.
  destruct (Z.ltb_spec (Z.of_nat (String.length a)) 0); [lia|].
  replace (Z.to_nat (Z.min (Z.of_nat (String.length a)) _))
    with (String.length a) by lia.
  match goal with
  | |- substring _ ?n _ = _ => replace n with (String.length m) by lia
  end.
  rewrite <- (append_nil_r m) at 2. apply substring_middle.
Qed.

Lemma slice_upto (a m : string) :
  slice (a ++ m) None (Some (Z.of_nat (String.length a))) = a.
Proof.
  unfold slice, clamp_index. rewrite !length_append.
  destruct (Z.ltb_spec (Z.of_nat (String.length a)) 0); [lia|].
  match goal with
  | |- substring _ ?n _ = _ => replace n with (String.length a) by lia
  end.
  apply (substring_middle "" a m).
Qed.

Lemma lstrip_by_app (p : ascii -> bool) (c r : string) :
  lstrip_by p c = c -> c <> "" -> lstrip_by p (c ++ r) = c ++ r.
Proof.
  destruct c as [|d c]; [congruence|]. cbn. intros H _.
  destruct (p d) eqn:E; [|reflexivity].
  exfalso. pose proof (part_of_length _ _ (lstrip_by_part p c)) as Hl.
  rewrite H in Hl. cbn in Hl. lia.
Qed.

Lemma rstrip_code_nl (code : string) :
  strip code = code -> code <> "" -> rstrip (code ++ nl) = code.
Proof.
  intros Hs Hc. unfold rstrip.
  rewrite rstrip_by_app_drop by reflexivity.
  apply (strip_fixed_parts code Hs).
Qed.

Lemma prefix_app (p r : string) : prefix p (p ++ r) = true.
Proof.
  induction p as [|c p IH]; cbn; [now destruct r|].
  destruct (ascii_dec c c); [exact IH|congruence].
Qed.

Lemma fenced_text (mid : string) :
  strip (fence ++ mid ++ fence) = fence ++ mid ++ fence
  /\ startswith (fence ++ mid ++ fence) fence = true
  /\ endswith (fence ++ mid ++ fence) fence = true
  /\ slice (fence ++ mid ++ fence) (Some 3%Z) (Some (-3)%Z) = mid.
Proof.
  split; [|split; [|split]].
  - unfold strip. change (lstrip (fence ++ mid ++ fence))
      with (fence ++ mid ++ fence).
    unfold rstrip. rewrite <- append_assoc.
    rewrite rstrip_by_app_keep; [reflexivity|discriminate].
  - apply prefix_app.
  - rewrite <- append_assoc. apply endswith_app.
  - apply (slice_inner fence mid fence). discriminate.
Qed.

(** A tag line in front of stripped, non-empty code is dropped. *)
Lemma tag_line_dropped (tag code : string) :
  (forall r, lstrip (tag ++ r) = tag ++ r) ->
  find tag newline = (-1)%Z ->
  in_set (lower (strip tag)) language_tags = true ->
  strip code = code -> code <> "" ->
  _strip_code_fences (tagged_fence tag code) = code.
Proof.
  intros Ht1 Ht2 Ht3 Hs Hc.
  destruct (strip_fixed_parts code Hs) as (Hl & Hr).
  unfold tagged_fence, _strip_code_fences. cbv zeta.
  assert (Ha : fence ++ tag ++ nl ++ code ++ nl ++ fence
               = fence ++ (tag ++ nl ++ code ++ nl) ++ fence)
    by (now rewrite !append_assoc).
  rewrite Ha.
  destruct (fenced_text (tag ++ nl ++ code ++ nl)) as (E1 & E2 & E3 & E4).
  rewrite E1, E2, E3, E4. cbn [andb].
  assert (Hm : strip (tag ++ nl ++ code ++ nl) = tag ++ nl ++ code).
  { unfold strip. rewrite Ht1. unfold rstrip.
    rewrite <- (append_assoc tag nl (code ++ nl)).
    rewrite rstrip_by_app_keep.
    - fold rstrip. rewrite (rstrip_code_nl code Hs Hc).
      now rewrite append_assoc.
    - fold rstrip. now rewrite (rstrip_code_nl code Hs Hc). }
  rewrite Hm.
  change (tag ++ nl ++ code) with (tag ++ String newline code).
  rewrite (find_after tag code newline Ht2).
  destruct (Z.eqb_spec (Z.of_nat (String.length tag)) (-1)); [lia|].
  cbn [negb]. rewrite slice_upto, Ht3.
  change (tag ++ String newline code) with (tag ++ nl ++ code).
  rewrite <- append_assoc.
  replace (Z.of_nat (String.length tag) + 1)%Z
    with (Z.of_nat (String.length (tag ++ nl))).
  - rewrite slice_from. exact Hl.
  - rewrite length_append. cbn. lia.
Qed.

(** X12: the post-processor undoes a markdown fence: for stripped,
    non-empty code, the code wrapped in a triple-backtick fence
    with any of the ten language tags comes back exactly, and so does code
    in a bare fence unless its own first line is a bare language tag. *)
Theorem fence_round_trip (tag code : string) :
  In tag language_tags ->
  strip code = code -> code <> "" ->
  _strip_code_fences (tagged_fence tag code) = code
  /\ (has_language_tag code = false ->
      _strip_code_fences (bare_fence code) = code).
Proof.
  intros Ht Hs Hc. split.
  - cbn in Ht.
    repeat (destruct Ht as [<-|Ht];
            [apply tag_line_dropped; auto; intros r; reflexivity|]).
    contradiction.
  - intros Hn.
    destruct (strip_fixed_parts code Hs) as (Hl & Hr).
    unfold bare_fence, _strip_code_fences. cbv zeta.
    assert (Ha : fence ++ nl ++ code ++ nl ++ fence
                 = fence ++ (nl ++ code ++ nl) ++ fence)
      by (now rewrite !append_assoc).
    rewrite Ha.
    destruct (fenced_text (nl ++ code ++ nl)) as (E1 & E2 & E3 & E4).
    rewrite E1, E2, E3, E4. cbn [andb].
    assert (Hm : strip (nl ++ code ++ nl) = code).
    { unfold strip.
      change (lstrip (nl ++ code ++ nl)) with (lstrip (code ++ nl)).
      unfold lstrip. rewrite (lstrip_by_app isspace code nl Hl Hc).
      apply (rstrip_code_nl code Hs Hc). }
    rewrite Hm. unfold has_language_tag in Hn.
    destruct (negb (find code newline =? -1)%Z); [|reflexivity].
    rewrite andb_true_l in Hn. now rewrite Hn.
Qed.

Lemma fence_round_trip_witness :
  _strip_code_fences (tagged_fence "rust" "fn main() {}") = "fn main() {}"
  /\ (has_language_tag "fn main() {}" = false ->
      _strip_code_fences (bare_fence "fn main() {}") = "fn main() {}").
Proof.
  apply (fence_round_trip "rust" "fn main() {}").
  - cbn. repeat ((left; reflexivity) || right).
  - reflexivity.
  - discriminate.
Defined.

End FencesExtras.

(** ** Batch speech generation: names, termination, errors and calls *)

Module BatchExtras.
Import Py Eff PdfPodcastTTS BatchObs StrFacts.

(** *** Segment names *)

Lemma parse_zeros (k : nat) (s : string) :
  parse_03d (zeros k ++ s) = parse_03d s.
Proof.
  induction k as [|k IH]; [reflexivity|].
  unfold parse_03d in *. cbn.
  destruct (NilEmpty.uint_of_string (zeros k ++ s)) as [d|];
    destruct (NilEmpty.uint_of_string s) as [d'|]; cbn in *;
    try discriminate; try reflexivity.
  rewrite <- IH. reflexivity.
Qed.

Lemma parse_format (i : nat) : parse_03d (format_03d i) = Some i.
Proof.
  unfold format_03d. cbv zeta. rewrite parse_zeros.
  unfold parse_03d. rewrite NilEmpty.usu. cbn.
  f_equal. apply Unsigned.of_to.
Qed.

Lemma append_inv_tail (a b s : string) : a ++ s = b ++ s -> a = b.
Proof.
  revert b. induction a as [|c a IH]; intros [|d b]; cbn; intros H.
  - reflexivity.
  - apply (f_equal String.length) in H. cbn in H.
    rewrite length_append in H. lia.
  - apply (f_equal String.length) in H. cbn in H.
    rewrite length_append in H. lia.
  - injection H as -> H. f_equal. auto.
Qed.

Lemma segment_path_inj (dir : Path) (i j : nat) :
  segment_path dir i = segment_path dir j -> i = j.
Proof.
  unfold segment_path. intros H. injection H as H.
  apply append_inv_tail in H.
  pose proof (parse_format i) as Hi. rewrite H, parse_format in Hi.
  congruence.
Qed.

Lemma NoDup_map_inj {A B} (f : A -> B) (l : list A) :
  (forall x y, f x = f y -> x = y) -> NoDup l -> NoDup (map f l).
Proof.
  intros Hf. induction 1 as [|x l Hx Hl IH]; cbn; constructor; auto.
  intros Hin. apply in_map_iff in Hin. destruct Hin as (y & Hy & Hin).
  apply Hf in Hy. congruence.
Qed.

Lemma output_paths_NoDup (texts voices : list string) (dir : Path) :
  NoDup (output_paths texts voices dir).
Proof.
  rewrite BatchSpec.output_paths_seq.
  apply NoDup_map_inj; [apply segment_path_inj|apply seq_NoDup].
Qed.

(** X13: the zero-padded index in a segment's file name reads back as the
    index, also past 999 where the name grows a digit; so two segments of
    a batch never share an output file, and the returned list holds no
    path twice. *)
Theorem segment_paths_distinct (texts voices : list string) (dir : Path) :
  (forall i, parse_03d (format_03d i) = Some i)
  /\ (forall i j, segment_path dir i = segment_path dir j -> i = j)
  /\ NoDup (output_paths texts voices dir).
Proof.
  split; [exact parse_format|].
  split; [exact (segment_path_inj dir)|apply output_paths_NoDup].
Qed.

(** *** Counting in lists *)

Lemma filter_witness {A} (f : A -> bool) (l : list A) :
  List.length (filter f l) <> 0 ->
  exists j x, nth_error l j = Some x /\ f x = true.
Proof.
  induction l as [|h t IH]; cbn; [congruence|].
  destruct (f h) eqn:E.
  - intros _. exists 0, h. auto.
  - intros H. destruct (IH H) as (j & x & Hj & Hx).
    exists (Datatypes.S j), x. auto.
Qed.

Lemma filter_none {A} (f : A -> bool) (l : list A) (j : nat) (x : A) :
  List.length (filter f l) = 0 -> nth_error l j = Some x -> f x = false.
Proof.
  intros Hl Hj. destruct (f x) eqn:E; [|reflexivity].
  assert (Hin : In x (filter f l)).
  { apply filter_In. split; [now apply nth_error_In with j|exact E]. }
  destruct (filter f l); [contradiction|discriminate].
Qed.

Lemma forallb_witness {A} (f : A -> bool) (l : list A) :
  forallb f l = false -> exists j x, nth_error l j = Some x /\ f x = false.
Proof.
  induction l as [|h t IH]; cbn; [discriminate|].
  destruct (f h) eqn:E; cbn.
  - intros H. destruct (IH H) as (j & x & Hj & Hx).
    exists (Datatypes.S j), x. auto.
  - intros _. exists 0, h. auto.
Qed.



Lemma speech_calls_app (a b : list io) :
  speech_calls (a ++ b) = speech_calls a + speech_calls b.
Proof. unfold speech_calls. now rewrite filter_app, length_app. Qed.

Lemma written_app (a b : list io) :
  written (a ++ b) = (written a ++ written b)%list.
Proof. unfold written. apply flat_map_app. Qed.


(** *** The four transitions of a task *)

Section Run.
Variable self : TTSClient.
Variable sp : speech_env.
Variable tasks : list task.

Lemma step_cases (a : action) (p p' : pool) :
  step self sp tasks a p = Some p' ->
  exists i t,
    nth_error tasks i = Some t
    /\ ((a = Start i /\ nth_error (phases p) i = Some Pending
         /\ client self = None /\ sem p <> 0
         /\ p' = {| sem := sem p;
                    phases := update i (Failed not_configured) (phases p);
                    first_error := first_of (first_error p) not_configured;
                    ios := ios p |})
        \/ (a = Start i /\ nth_error (phases p) i = Some Pending
            /\ client self <> None /\ sem p <> 0
            /\ p' = {| sem := Nat.pred (sem p);
                       phases := update i InFlight (phases p);
                       first_error := first_error p;
                       ios := (ios p ++
                         [LogIO INFO
                            "Generating speech: voice=%s, length=%d chars";
                          SpeechCreate (model self) (task_voice t)
                            (task_text t)])%list |})
        \/ (a = Complete i /\ nth_error (phases p) i = Some InFlight
            /\ exists audio,
                sp i (task_text t) (task_voice t) = SpeechReturns audio
                /\ p' = {| sem := Datatypes.S (sem p);
                           phases := update i (Done audio) (phases p);
                           first_error := first_error p;
                           ios := (ios p ++
                             [Mkdir (parent_of (task_output_path t));
                              WriteFile (task_output_path t) audio;
                              LogIO INFO "Saved audio to %s";
                              LogIO INFO "Generated %d bytes of audio"])%list
                        |})
        \/ (a = Complete i /\ nth_error (phases p) i = Some InFlight
            /\ exists e,
                sp i (task_text t) (task_voice t) = SpeechRaises e
                /\ p' = {| sem := Datatypes.S (sem p);
                           phases := update i (Failed e) (phases p);
                           first_error := first_of (first_error p) e;
                           ios := (ios p ++
                             [LogIO ERROR "Speech generation failed: %s"])%list
                        |})).
Proof.
  destruct a as [i|i]; cbn.
  - destruct (nth_error (phases p) i) as [[| | |]|] eqn:Ep;
      try discriminate.
    destruct (nth_error tasks i) as [t|] eqn:Et; [|discriminate].
    destruct (sem p) as [|k] eqn:Es; [discriminate|].
    destruct (client self) eqn:Ec; intros H; injection H as <-;
      exists i, t; (split; [exact Et|]); rewrite ?Es; cbn.
    + right. left. repeat split; congruence.
    + left. repeat split; congruence.
  - destruct (nth_error (phases p) i) as [[| | |]|] eqn:Ep;
      try discriminate.
    destruct (nth_error tasks i) as [t|] eqn:Et; [|discriminate].
    destruct (sp i (task_text t) (task_voice t)) as [e|audio] eqn:Esp;
      intros H; injection H as <-; exists i, t; (split; [exact Et|]).
    + right. right. right. split; [reflexivity|]. split; [exact Ep|].
      exists e. auto.
    + right. right. left. split; [reflexivity|]. split; [exact Ep|].
      exists audio. auto.
Qed.

Ltac step_inv H :=
  let i := fresh "i" in
  let t := fresh "t" in
  let Ht := fresh "Ht" in
  let Ep := fresh "Ep" in
  let Hc := fresh "Hc" in
  let Hs := fresh "Hs" in
  let x := fresh "x" in
  let Hx := fresh "Hx" in
  destruct (step_cases _ _ _ H)
    as (i & t & Ht
        & [(-> & Ep & Hc & Hs & ->)
          |[(-> & Ep & Hc & Hs & ->)
           |[(-> & Ep & x & Hx & ->)
            |(-> & Ep & x & Hx & ->)]]]);
  clear H; cbn [phases sem first_error ios] in *.

Lemma exec_preserves (P : pool -> Prop) :
  (forall a p p', step self sp tasks a p = Some p' -> P p -> P p') ->
  forall sched p p', exec self sp tasks sched p = Some p' -> P p -> P p'.
Proof.
  intros Hstep. induction sched as [|a sched IH]; intros p p'; cbn.
  - intros H. injection H as <-. auto.
  - destruct (step self sp tasks a p) as [p1|] eqn:Es; [|discriminate].
    intros H Hp. apply (IH p1 p' H). now apply Hstep with a p.
Qed.

Lemma exec_app (s1 s2 : list action) (p : pool) :
  exec self sp tasks (s1 ++ s2) p
  = match exec self sp tasks s1 p with
    | Some p1 => exec self sp tasks s2 p1
    | None => None
    end.
Proof.
  revert p. induction s1 as [|a s1 IH]; intros p; cbn; [reflexivity|].
  destruct (step self sp tasks a p); auto.
Qed.

(** Every resumption uses up one of the resumptions owed. *)
Lemma step_remaining (a : action) (p p' : pool) :
  step self sp tasks a p = Some p' -> remaining p' < remaining p.
Proof.
  intros H. unfold remaining, in_flight. step_inv H;
    match goal with
    | Ep : nth_error (phases p) ?i = Some ?old
      |- context [update ?i ?new (phases p)] =>
        pose proof (BatchSpec.count_update is_pending i new old _ Ep);
        pose proof (BatchSpec.count_update is_in_flight i new old _ Ep)
    end; cbn in *; lia.
Qed.

Lemma exec_remaining (sched : list action) (p p' : pool) :
  exec self sp tasks sched p = Some p' ->
  List.length sched + remaining p' <= remaining p.
Proof.
  revert p. induction sched as [|a sched IH]; intros p;
    cbn [exec List.length].
  - intros H. injection H as <-. lia.
  - destruct (step self sp tasks a p) as [p1|] eqn:Es; [|discriminate].
    intros H. specialize (IH p1 H).
    pose proof (step_remaining _ _ _ Es). lia.
Qed.

Lemma remaining_pool0 (value : nat) (before : list io) :
  remaining (pool0 value tasks before) = 2 * List.length tasks.
Proof.
  unfold remaining, in_flight, pool0. cbn [phases].
  induction tasks as [|t ts IH]; cbn in *; lia.
Qed.

(** A failed task has left its exception with [gather]. *)
Lemma step_errors (a : action) (p p' : pool) :
  step self sp tasks a p = Some p' ->
  (first_error p = None -> List.length (filter is_failed (phases p)) = 0) ->
  first_error p' = None -> List.length (filter is_failed (phases p')) = 0.
Proof.
  intros H Hinv. step_inv H; intros He;
    try (destruct (first_error p); discriminate);
    specialize (Hinv He);
    match goal with
    | Ep : nth_error (phases p) ?i = Some ?old
      |- context [update ?i ?new (phases p)] =>
        pose proof (BatchSpec.count_update is_failed i new old _ Ep)
    end; cbn in *; lia.
Qed.

(** While [gather] waits and a permit exists, some task can be resumed. *)
Lemma progress (value : nat) (p : pool) :
  0 < value -> balanced value p ->
  List.length (phases p) = List.length tasks ->
  (first_error p = None -> List.length (filter is_failed (phases p)) = 0) ->
  gather p = None ->
  exists a p', step self sp tasks a p = Some p'.
Proof.
  intros Hv Hb Hl He. unfold gather.
  destruct (first_error p) as [e|]; [discriminate|].
  destruct (forallb is_done (phases p)) eqn:Ed; [discriminate|].
  intros _. specialize (He eq_refl).
  assert (Htask : forall j x, nth_error (phases p) j = Some x ->
                              exists t, nth_error tasks j = Some t).
  { intros j x Hj.
    assert (Hlt : j < List.length tasks).
    { rewrite <- Hl. apply nth_error_Some. congruence. }
    apply nth_error_Some in Hlt.
    destruct (nth_error tasks j) as [t|]; [eauto|congruence]. }
  destruct (Nat.eq_dec (in_flight p) 0) as [Hz|Hnz].
  - destruct (forallb_witness _ _ Ed) as (j & x & Hj & Hx).
    destruct (Htask j x Hj) as (t & Ht).
    pose proof (filter_none _ _ _ _ Hz Hj) as Hf.
    pose proof (filter_none _ _ _ _ He Hj) as Hg.
    destruct x; try discriminate.
    exists (Start j). cbn. rewrite Hj, Ht.
    unfold balanced in Hb.
    destruct (sem p) as [|k]; [lia|].
    destruct (client self); eauto.
  - destruct (filter_witness _ _ Hnz) as (j & x & Hj & Hx).
    destruct (Htask j x Hj) as (t & Ht).
    destruct x; try discriminate.
    exists (Complete j). cbn. rewrite Hj, Ht.
    destruct (sp j (task_text t) (task_voice t)); eauto.
Qed.

(** From every state the loop can bring [gather] to an end. *)
Lemma can_finish (value : nat) :
  0 < value ->
  forall n p,
    remaining p <= n -> balanced value p ->
    List.length (phases p) = List.length tasks ->
    (first_error p = None ->
     List.length (filter is_failed (phases p)) = 0) ->
    exists rest p',
      exec self sp tasks rest p = Some p' /\ gather p' <> None.
Proof.
  intros Hv. induction n as [|n IH]; intros p Hn Hb Hl He;
    (destruct (gather p) eqn:Eg;
     [exists [], p; cbn; split; [reflexivity|congruence]|]);
    destruct (progress value p Hv Hb Hl He Eg) as (a & p1 & Hs);
    pose proof (step_remaining _ _ _ Hs) as Hr; [lia|].
  destruct (IH p1) as (rest & p' & Hx & Hg).
  - lia.
  - now apply BatchSpec.step_balanced with self sp tasks a p.
  - rewrite <- Hl. now apply BatchSpec.step_length with self sp tasks a.
  - now apply step_errors with a p.
  - exists (a :: rest), p'. cbn. rewrite Hs. auto.
Qed.

(** The requests sent and the files written, counted against the phases. *)
Lemma step_calls (n : nat) (a : action) (p p' : pool) :
  step self sp tasks a p = Some p' ->
  speech_calls (ios p) + List.length (filter is_pending (phases p)) <= n
  /\ (client self <> None ->
      speech_calls (ios p) + List.length (filter is_pending (phases p)) = n)
  /\ (client self = None ->
      speech_calls (ios p) = 0 /\ written (ios p) = [] /\ in_flight p = 0)
  /\ List.length (written (ios p))
     = List.length (filter is_done (phases p)) ->
  speech_calls (ios p') + List.length (filter is_pending (phases p')) <= n
  /\ (client self <> None ->
      speech_calls (ios p') + List.length (filter is_pending (phases p'))
      = n)
  /\ (client self = None ->
      speech_calls (ios p') = 0 /\ written (ios p') = []
      /\ in_flight p' = 0)
  /\ List.length (written (ios p'))
     = List.length (filter is_done (phases p')).
Proof.
  intros H (Hle & Hconf & Hnone & Hw). unfold in_flight in *.
  step_inv H;
    match goal with
    | Ep : nth_error (phases p) ?i = Some ?old
      |- context [update ?i ?new (phases p)] =>
        pose proof (BatchSpec.count_update is_pending i new old _ Ep);
        pose proof (BatchSpec.count_update is_in_flight i new old _ Ep);
        pose proof (BatchSpec.count_update is_done i new old _ Ep)
    end;
    rewrite ?speech_calls_app, ?written_app, ?length_app; cbn in *.
  - destruct (Hnone Hc) as (Hn1 & Hn2 & Hn3).
    split; [lia|]. split; [intros Hc'; contradiction|].
    split; [intros _; repeat split; auto; lia|lia].
  - specialize (Hconf Hc).
    split; [lia|]. split; [intros _; lia|].
    split; [intros Hc'; contradiction|lia].
  - assert (Hc : client self <> None).
    { intros Hc. destruct (Hnone Hc) as (_ & _ & Hz).
      pose proof (filter_none _ _ _ _ Hz Ep). discriminate. }
    specialize (Hconf Hc).
    split; [lia|]. split; [intros _; lia|].
    split; [intros Hc'; contradiction|lia].
  - assert (Hc : client self <> None).
    { intros Hc. destruct (Hnone Hc) as (_ & _ & Hz).
      pose proof (filter_none _ _ _ _ Hz Ep). discriminate. }
    specialize (Hconf Hc).
    split; [lia|]. split; [intros _; lia|].
    split; [intros Hc'; contradiction|lia].
Qed.

(** The exception [gather] holds was raised by a task. *)
Lemma step_origin (a : action) (p p' : pool) :
  step self sp tasks a p = Some p' ->
  (forall e, first_error p = Some e ->
     (client self = None /\ e = not_configured)
     \/ exists i t, nth_error tasks i = Some t
                    /\ sp i (task_text t) (task_voice t) = SpeechRaises e) ->
  forall e, first_error p' = Some e ->
    (client self = None /\ e = not_configured)
    \/ exists i t, nth_error tasks i = Some t
                   /\ sp i (task_text t) (task_voice t) = SpeechRaises e.
Proof.
  intros H Hinv. step_inv H; intros e He; auto.
  - destruct (first_error p) as [e0|]; cbn in He.
    + apply Hinv. exact He.
    + injection He as <-. auto.
  - destruct (first_error p) as [e0|]; cbn in He.
    + apply Hinv. exact He.
    + injection He as <-. right. eauto.
Qed.

End Run.

(** *** The batch as a whole *)

Lemma count_pool0 (f : phase -> bool) (tasks : list task) :
  List.length (filter f (map (fun _ => Pending) tasks))
  = if f Pending then List.length tasks else 0.
Proof.
  induction tasks as [|t ts IH]; cbn; [now destruct (f Pending)|].
  destruct (f Pending); cbn; auto.
Qed.


(** Without a permit and without a call in flight no task can be resumed. *)
Lemma step_blocked (self : TTSClient) (sp : speech_env) (tasks : list task)
    (a : action) (p : pool) :
  sem p = 0 -> in_flight p = 0 -> step self sp tasks a p = None.
Proof.
  intros Hs Hz. destruct a as [i|i]; cbn.
  - rewrite Hs.
    destruct (nth_error (phases p) i) as [[| | |]|]; try reflexivity.
    destruct (nth_error tasks i); reflexivity.
  - destruct (nth_error (phases p) i) as [[| | |]|] eqn:Ep;
      try reflexivity.
    pose proof (filter_none _ _ _ _ Hz Ep). discriminate.
Qed.

(** What holds of the pool after any run from the start of a batch. *)
Lemma reachable (self : TTSClient) (sp : speech_env) (tasks : list task)
    (dir : Path) (value : nat) (sched : list action) (p : pool) :
  exec self sp tasks sched (pool0 value tasks [Mkdir dir]) = Some p ->
  (balanced value p /\ slots_filled sp tasks p
   /\ List.length (phases p) = List.length tasks)
  /\ (first_error p = None ->
      List.length (filter is_failed (phases p)) = 0)
  /\ (speech_calls (ios p) + List.length (filter is_pending (phases p))
      <= List.length tasks
      /\ (client self <> None ->
          speech_calls (ios p)
          + List.length (filter is_pending (phases p))
          = List.length tasks)
      /\ (client self = None ->
          speech_calls (ios p) = 0 /\ written (ios p) = []
          /\ in_flight p = 0)
      /\ List.length (written (ios p))
         = List.length (filter is_done (phases p)))
  /\ (forall e, first_error p = Some e ->
        (client self = None /\ e = not_configured)
        \/ exists i t,
            nth_error tasks i = Some t
            /\ sp i (task_text t) (task_voice t) = SpeechRaises e).
Proof.
  intros H.
  destruct (BatchSpec.pool0_invariants sp tasks value [Mkdir dir])
    as (Hb0 & Hf0).
  split; [|split; [|split]].
  - destruct (BatchSpec.exec_invariants self sp tasks value sched _ _ H
                Hb0 Hf0) as (Hb & Hf & Hl).
    rewrite BatchSpec.length_pool0 in Hl. auto.
  - refine (exec_preserves self sp tasks
              (fun q => first_error q = None ->
                        List.length (filter is_failed (phases q)) = 0)
              (step_errors self sp tasks) sched _ p H _).
    intros _. unfold pool0. cbn [phases]. now rewrite count_pool0.
  - refine (exec_preserves self sp tasks _
              (step_calls self sp tasks (List.length tasks)) sched _ p H _).
    unfold pool0, in_flight. cbn [phases ios]. rewrite !count_pool0.
    cbn. repeat split; lia.
  - refine (exec_preserves self sp tasks _
              (step_origin self sp tasks) sched _ p H _).
    unfold pool0. cbn. discriminate.
Qed.

(** X14: with at least one permit the batch cannot hang and cannot run
    forever: whatever the event loop has done so far, it has resumed tasks
    at most twice per task, and it can go on to a point where the batch
    returns or raises. *)
Theorem batch_runs_to_completion (self : TTSClient) (st : Settings)
    (sp : speech_env) (texts voices : list string) (output_dir : Path)
    (value : nat) (sched : list action) (p : pool) :
  Semaphore (MAX_CONCURRENT_REQUESTS st) = Ok value ->
  0 < value ->
  exec self sp (make_tasks texts voices output_dir) sched
    (pool0 value (make_tasks texts voices output_dir) [Mkdir output_dir])
  = Some p ->
  List.length sched
  <= 2 * Nat.min (List.length texts) (List.length voices)
  /\ exists rest r,
      generate_speech_batch self st sp texts voices output_dir
        (sched ++ rest)%list
      = Some r.
Proof.
  intros Hsem Hv Hexec.
  set (tasks := make_tasks texts voices output_dir) in *.
  split.
  - pose proof (exec_remaining _ _ _ _ _ _ Hexec) as Hr.
    rewrite remaining_pool0 in Hr. unfold tasks in Hr.
    rewrite BatchSpec.length_make_tasks in Hr. lia.
  - destruct (reachable _ _ _ _ _ _ _ Hexec)
      as ((Hb & _ & Hl) & He & _ & _).
    destruct (can_finish self sp tasks value Hv (remaining p) p
                (le_n _) Hb Hl He) as (rest & p' & Hx & Hg).
    exists rest. unfold generate_speech_batch. rewrite Hsem.
    fold tasks. rewrite exec_app, Hexec, Hx.
    destruct (gather p') as [[[]|e]|]; [eexists; reflexivity..|].
    congruence.
Qed.

Lemma batch_runs_to_completion_witness :
  Semaphore (MAX_CONCURRENT_REQUESTS (Scenario.tts_settings 2)) = Ok 2
  /\ match
       exec (Scenario.tts_client 2) Scenario.speech_ok
         (make_tasks Scenario.five_texts Scenario.five_voices
            (PurePath "out"))
         [Start 3; Start 0]
         (pool0 2
            (make_tasks Scenario.five_texts Scenario.five_voices
               (PurePath "out"))
            [Mkdir (PurePath "out")])
     with
     | Some p =>
         exists rest r,
           generate_speech_batch (Scenario.tts_client 2)
             (Scenario.tts_settings 2) Scenario.speech_ok
             Scenario.five_texts Scenario.five_voices (PurePath "out")
             ([Start 3; Start 0] ++ rest)%list
           = Some r
     | None => False
     end.
Proof.
  split; [reflexivity|].
  destruct (exec (Scenario.tts_client 2) Scenario.speech_ok
              (make_tasks Scenario.five_texts Scenario.five_voices
                 (PurePath "out"))
              [Start 3; Start 0]
              (pool0 2
                 (make_tasks Scenario.five_texts Scenario.five_voices
                    (PurePath "out"))
                 [Mkdir (PurePath "out")])) as [p|] eqn:Hexec.
  - destruct (batch_runs_to_completion (Scenario.tts_client 2)
                (Scenario.tts_settings 2) Scenario.speech_ok
                Scenario.five_texts Scenario.five_voices (PurePath "out")
                2 [Start 3; Start 0] p eq_refl (le_S _ _ (le_n 1)) Hexec)
      as (_ & H).
    exact H.
  - vm_compute in Hexec. discriminate Hexec.
Defined.

(** X15: MAX_CONCURRENT_REQUESTS must be positive for a batch with at
    least one text and one voice: a negative limit makes the semaphore's
    constructor raise ValueError after the output directory was created
    and before any call, and with a limit of 0 no task ever gets a permit,
    so under no schedule does the batch return or raise. *)
Theorem batch_without_permits (self : TTSClient) (st : Settings)
    (sp : speech_env) (texts voices : list string) (output_dir : Path)
    (sched : list action) :
  (MAX_CONCURRENT_REQUESTS st <= 0)%Z ->
  texts <> [] -> voices <> [] ->
  generate_speech_batch self st sp texts voices output_dir sched
  = if (MAX_CONCURRENT_REQUESTS st <? 0)%Z
    then Some (Raise (Exc "ValueError"
                        "Semaphore initial value must be >= 0"),
               [Mkdir output_dir])
    else None.
Proof.
  intros Hle Ht Hv. unfold generate_speech_batch, Semaphore.
  destruct (Z.ltb_spec (MAX_CONCURRENT_REQUESTS st) 0) as [Hlt|Hge];
    [reflexivity|].
  replace (MAX_CONCURRENT_REQUESTS st) with 0%Z by lia.
  change (Z.to_nat 0) with 0.
  destruct texts as [|text texts']; [congruence|].
  destruct voices as [|voice voices']; [congruence|].
  destruct sched as [|a sched']; [reflexivity|].
  cbn [exec]. rewrite step_blocked; [reflexivity|reflexivity|].
  unfold in_flight, pool0. cbn [phases]. now rewrite count_pool0.
Qed.

Lemma batch_without_permits_witness :
  (MAX_CONCURRENT_REQUESTS (Scenario.tts_settings 0) <= 0)%Z
  /\ generate_speech_batch (Scenario.tts_client 0) (Scenario.tts_settings 0)
       Scenario.speech_ok ["a"] ["alloy"] (PurePath "out")
       [Start 0; Complete 0]
     = None.
Proof.
  split; [cbn; lia|].
  apply (batch_without_permits (Scenario.tts_client 0)
           (Scenario.tts_settings 0) Scenario.speech_ok ["a"] ["alloy"]
           (PurePath "out") [Start 0; Complete 0]).
  - cbn. lia.
  - discriminate.
  - discriminate.
Defined.






End BatchExtras.

(** ** rag-chatbot: completions *)

Module RagCompletion.
Import Py Eff RagChatbot.


End RagCompletion.

(** ** code-translation: the translation as a whole *)

Module TranslationExtras.
Import Py Eff Fences Kept CodeTranslation.


End TranslationExtras.
